(** * AuthProxyWorkload reconciler: a shallow embedding

    This development embeds
    [internal/controller/authproxyworkload_controller.go] of the Cloud SQL
    proxy operator and states the properties of its reconcile loop, of the
    condition and workload-status merging helpers, and of the workload
    lookup.

    Conventions.
    - Go structs are records, one module per struct so that field names stay
      those of the source ([Condition.Status], [WorkloadStatus.Name], ...).
    - Slices of pointers ([[]*metav1.Condition]) are lists of values.  The
      helpers below overwrite a slot of the slice and hand the slice back;
      every caller assigns the returned slice to the field it passed in, so
      the returned list is the only view that is observed afterwards.
    - [time.Now()] is a reading of a clock; a reading is never the zero
      instant, so a [metav1.Time] is [None] for the zero value and [Some t]
      for an instant.
    - The API client is a record of functions over an abstract store state:
      the [client.Reader] calls only read that state, the [client.Writer]
      and status calls may change it.  A ghost log records every call the
      reconciler issues. *)

From Stdlib Require Import ZArith.
From stdpp Require Import base strings list gmap pretty.

Local Open Scope string_scope.
Local Open Scope Z_scope.
Local Open Scope list_scope.

(** ** Data model *)

(** [metav1.Time]: [None] is the zero value ([IsZero] holds, also for a nil
    pointer), [Some t] an instant. *)
Definition Time : Type := option Z.

Definition Time_IsZero (t : Time) : bool :=
  match t with
  | None => true
  | Some _ => false
  end.

(** [metav1.NewTime(time.Now())] for the clock reading [now]. *)
Definition NewTime (now : Z) : Time := Some now.

(** [metav1.ConditionStatus] is a string type. *)
Definition ConditionStatus : Type := string.
Definition ConditionTrue : ConditionStatus := "True".
Definition ConditionFalse : ConditionStatus := "False".
Definition ConditionUnknown : ConditionStatus := "Unknown".

Module Condition.
(** [metav1.Condition] *)
Record t : Type := mk {
  Type_ : string;
  Status : ConditionStatus;
  ObservedGeneration : Z;
  LastTransitionTime : Time;
  Reason : string;
  Message : string
}.

(** [c.LastTransitionTime = ts] *)
Definition setLastTransitionTime (c : t) (ts : Time) : t :=
  {| Type_ := Type_ c; Status := Status c;
     ObservedGeneration := ObservedGeneration c;
     LastTransitionTime := ts;
     Reason := Reason c; Message := Message c |}.
End Condition.

Module WorkloadStatus.
(** [cloudsqlapi.WorkloadStatus] *)
Record t : Type := mk {
  Kind : string;
  Version : string;
  Namespace : string;
  Name : string;
  Conditions : list Condition.t
}.

Definition setConditions (s : t) (cs : list Condition.t) : t :=
  {| Kind := Kind s; Version := Version s; Namespace := Namespace s;
     Name := Name s; Conditions := cs |}.

(** The identifying tuple of an entry. *)
Definition key (s : t) : string * string * string * string :=
  (Kind s, Version s, Namespace s, Name s).
End WorkloadStatus.

(** ** Condition and status merging *)

(** [findCondition]: the first condition whose type is [name], [None] for
    the nil result. *)
Fixpoint findCondition (conds : list Condition.t) (name : string)
  : option Condition.t :=
  match conds with
  | [] => None
  | c :: rest =>
      if bool_decide (Condition.Type_ c = name) then Some c
      else findCondition rest name
  end.

(** The timestamp [replaceCondition] gives to [newC] when it overwrites the
    existing condition [c]. *)
Definition transitionTime (now : Z) (c newC : Condition.t) : Time :=
  if bool_decide (Condition.Status c = Condition.Status newC)
     && negb (Time_IsZero (Condition.LastTransitionTime c))
  then Condition.LastTransitionTime c
  else NewTime now.

(** [replaceCondition]: the loop stops at the first condition of the type of
    [newC] and overwrites that slot; without a match [newC] is appended.
    [now] is the reading of [time.Now()]. *)
Fixpoint replaceCondition (now : Z) (conds : list Condition.t)
    (newC : Condition.t) : list Condition.t :=
  match conds with
  | [] => [Condition.setLastTransitionTime newC (NewTime now)]
  | c :: rest =>
      if bool_decide (Condition.Type_ c ≠ Condition.Type_ newC)
      then c :: replaceCondition now rest newC
      else Condition.setLastTransitionTime newC (transitionTime now c newC)
             :: rest
  end.

(** The test of the loop of [replaceStatus]. *)
Definition sameWorkload (s updatedStatus : WorkloadStatus.t) : bool :=
  bool_decide (WorkloadStatus.Name s = WorkloadStatus.Name updatedStatus)
  && bool_decide
       (WorkloadStatus.Namespace s = WorkloadStatus.Namespace updatedStatus)
  && bool_decide (WorkloadStatus.Kind s = WorkloadStatus.Kind updatedStatus)
  && bool_decide
       (WorkloadStatus.Version s = WorkloadStatus.Version updatedStatus).

(** The loop of [replaceStatus]: it does not stop at the first match, every
    matching slot is overwritten; the flag [updated] is returned with the
    slice. *)
Fixpoint replaceStatus_loop (statuses : list WorkloadStatus.t)
    (updatedStatus : WorkloadStatus.t) : list WorkloadStatus.t * bool :=
  match statuses with
  | [] => ([], false)
  | s :: rest =>
      let '(rest', updated) := replaceStatus_loop rest updatedStatus in
      if sameWorkload s updatedStatus
      then (updatedStatus :: rest', true)
      else (s :: rest', updated)
  end.

Definition replaceStatus (statuses : list WorkloadStatus.t)
    (updatedStatus : WorkloadStatus.t) : list WorkloadStatus.t :=
  let '(statuses', updated) := replaceStatus_loop statuses updatedStatus in
  if updated then statuses' else statuses' ++ [updatedStatus].


(** ** Objects of the API *)

(** [types.NamespacedName] (and its alias [client.ObjectKey]), as the pair
    (namespace, name). *)
Definition NamespacedName : Type := string * string.

Module ObjectMeta.
(** The fields of [metav1.ObjectMeta] the controller reads or writes. *)
Record t : Type := mk {
  Name : string;
  Namespace : string;
  Generation : Z;
  DeletionTimestamp : Time;
  Finalizers : list string
}.

Definition setFinalizers (m : t) (fs : list string) : t :=
  {| Name := Name m; Namespace := Namespace m; Generation := Generation m;
     DeletionTimestamp := DeletionTimestamp m; Finalizers := fs |}.
End ObjectMeta.

Module LabelSelector.
(** [metav1.LabelSelector]; a match expression is (key, operator, values). *)
Record t : Type := mk {
  MatchLabels : list (string * string);
  MatchExpressions : list (string * string * list string)
}.
End LabelSelector.

(** [labels.Selector], the parsed selector handed to the list call: its
    requirements (key, operator, values). *)
Definition Selector : Type := list (string * string * list string).

Module WorkloadSelectorSpec.
(** [cloudsqlapi.WorkloadSelectorSpec] *)
Record t : Type := mk {
  Kind : string;
  Namespace : string;
  Name : string;
  Selector : option LabelSelector.t
}.
End WorkloadSelectorSpec.

Module AuthProxyWorkloadStatus.
(** [cloudsqlapi.AuthProxyWorkloadStatus] *)
Record t : Type := mk {
  Conditions : list Condition.t;
  WorkloadStatus : list WorkloadStatus.t
}.
End AuthProxyWorkloadStatus.

Module AuthProxyWorkload.
(** [cloudsqlapi.AuthProxyWorkload]; of its spec the controller reads the
    workload selector only. *)
Record t : Type := mk {
  Meta : ObjectMeta.t;
  Spec_Workload : WorkloadSelectorSpec.t;
  Status : AuthProxyWorkloadStatus.t
}.

Definition GetName (r : t) : string := ObjectMeta.Name (Meta r).
Definition GetNamespace (r : t) : string := ObjectMeta.Namespace (Meta r).
Definition GetGeneration (r : t) : Z := ObjectMeta.Generation (Meta r).
Definition GetFinalizers (r : t) : list string :=
  ObjectMeta.Finalizers (Meta r).

Definition SetFinalizers (r : t) (fs : list string) : t :=
  {| Meta := ObjectMeta.setFinalizers (Meta r) fs;
     Spec_Workload := Spec_Workload r; Status := Status r |}.

(** [r.Status.Conditions = cs] *)
Definition setConditions (r : t) (cs : list Condition.t) : t :=
  {| Meta := Meta r; Spec_Workload := Spec_Workload r;
     Status := {| AuthProxyWorkloadStatus.Conditions := cs;
                  AuthProxyWorkloadStatus.WorkloadStatus :=
                    AuthProxyWorkloadStatus.WorkloadStatus (Status r) |} |}.

(** [r.Status.WorkloadStatus = ws] *)
Definition setWorkloadStatus (r : t) (ws : list WorkloadStatus.t) : t :=
  {| Meta := Meta r; Spec_Workload := Spec_Workload r;
     Status := {| AuthProxyWorkloadStatus.Conditions :=
                    AuthProxyWorkloadStatus.Conditions (Status r);
                  AuthProxyWorkloadStatus.WorkloadStatus := ws |} |}.
End AuthProxyWorkload.

Module Workload.
(** [workload.Workload]: the controller reads of a target object its kind,
    the identifier of its group and version, its namespace and its name. *)
Record t : Type := mk {
  Kind : string;
  Version : string;
  Namespace : string;
  Name : string
}.
End Workload.

Module WorkloadList.
(** [workload.WorkloadList]: a typed list of one kind; [Workloads] are its
    items once the list call has filled it. *)
Record t : Type := mk {
  Kind : string;
  Workloads : list Workload.t
}.
End WorkloadList.

Module error.
(** A Go [error]: [IsNotFound] is what [errors.IsNotFound] answers on it,
    [Error] its text. *)
Record t : Type := mk {
  IsNotFound : bool;
  Error : string
}.
End error.

(** [fmt.Errorf] with [%v]: a new error that does not wrap its argument. *)
Definition Errorf (msg : string) : error.t :=
  {| error.IsNotFound := false; error.Error := msg |}.

Module Result.
(** [ctrl.Result]; [RequeueAfter] in nanoseconds. *)
Record t : Type := mk {
  Requeue : bool;
  RequeueAfter : Z
}.
End Result.

Definition noRequeue : Result.t :=
  {| Result.Requeue := false; Result.RequeueAfter := 0 |}.
Definition requeueNow : Result.t :=
  {| Result.Requeue := true; Result.RequeueAfter := 0 |}.
Definition requeueWithDelay : Result.t :=
  {| Result.Requeue := true; Result.RequeueAfter := 30 * 1000000000 |}.

(** ** Finalizers ([controllerutil]) *)

Fixpoint containsString (fs : list string) (finalizer : string) : bool :=
  match fs with
  | [] => false
  | e :: rest =>
      if bool_decide (e = finalizer) then true
      else containsString rest finalizer
  end.

Definition ContainsFinalizer (o : AuthProxyWorkload.t) (finalizer : string)
  : bool :=
  containsString (AuthProxyWorkload.GetFinalizers o) finalizer.

Definition AddFinalizer (o : AuthProxyWorkload.t) (finalizer : string)
  : AuthProxyWorkload.t :=
  if containsString (AuthProxyWorkload.GetFinalizers o) finalizer then o
  else AuthProxyWorkload.SetFinalizers o
         (AuthProxyWorkload.GetFinalizers o ++ [finalizer]).

Fixpoint removeString (fs : list string) (finalizer : string) : list string :=
  match fs with
  | [] => []
  | e :: rest =>
      if bool_decide (e = finalizer) then removeString rest finalizer
      else e :: removeString rest finalizer
  end.

Definition RemoveFinalizer (o : AuthProxyWorkload.t) (finalizer : string)
  : AuthProxyWorkload.t :=
  AuthProxyWorkload.SetFinalizers o
    (removeString (AuthProxyWorkload.GetFinalizers o) finalizer).

(** ** The deletion cache *)

Module recentlyDeletedCache.
(** [values] is [None] for the nil map of a fresh cache; the lock is not
    modelled, one invocation runs at a time here. *)
Record t : Type := mk {
  values : option (gmap NamespacedName bool)
}.

Definition empty : t := {| values := None |}.

Definition set (c : t) (k : NamespacedName) (deleted : bool) : t :=
  let m := match values c with
           | None => ∅
           | Some m => m
           end in
  {| values := Some (<[k := deleted]> m) |}.

Definition get (c : t) (k : NamespacedName) : bool :=
  match values c with
  | None => false
  | Some m =>
      match m !! k with
      | None => false
      | Some deleted => deleted
      end
  end.
End recentlyDeletedCache.

(** [newStatus] *)
Definition newStatus (wl : Workload.t) : WorkloadStatus.t :=
  {| WorkloadStatus.Kind := Workload.Kind wl;
     WorkloadStatus.Version := Workload.Version wl;
     WorkloadStatus.Namespace := Workload.Namespace wl;
     WorkloadStatus.Name := Workload.Name wl;
     WorkloadStatus.Conditions := [] |}.

(** [schema.ParseKindArg(arg)], second result, field [Kind]: the text before
    the first dot. *)
Fixpoint ParseKindArg_Kind (arg : string) : string :=
  match arg with
  | EmptyString => EmptyString
  | String a rest =>
      if Ascii.eqb a (Ascii.ascii_of_nat 46) then EmptyString
      else String a (ParseKindArg_Kind rest)
  end.

(** ** The API client and the reconciler's world *)

(** Every call the reconciler issues through its client. *)
Inductive Call : Type :=
| CallGet (key : NamespacedName)
| CallGetObject (key : NamespacedName) (obj : Workload.t)
| CallList (list : WorkloadList.t) (ns : string) (sel : Selector)
| CallUpdate (obj : AuthProxyWorkload.t)
| CallStatusPatch (obj orig : AuthProxyWorkload.t).

(** The mutating calls: [Update] and the status [Patch]. *)
Definition isWrite (c : Call) : bool :=
  match c with
  | CallUpdate _ | CallStatusPatch _ _ => true
  | _ => false
  end.

Definition writes (cs : list Call) : list Call := filter (λ c, isWrite c) cs.

(** [client.Client] over a store state [S].  The reader calls answer from
    the state; [Update] and [StatusPatch] answer nil or an error and give the
    next state. *)
Record Client (S : Type) : Type := mkClient {
  Get : NamespacedName → S → AuthProxyWorkload.t + error.t;
  GetObject : NamespacedName → Workload.t → S → Workload.t + error.t;
  List : WorkloadList.t → string → Selector → S → WorkloadList.t + error.t;
  Update : AuthProxyWorkload.t → S → option error.t * S;
  StatusPatch :
    AuthProxyWorkload.t → AuthProxyWorkload.t → S → option error.t * S
}.
Arguments Get {S}.
Arguments GetObject {S}.
Arguments List {S}.
Arguments Update {S}.
Arguments StatusPatch {S}.

(** What one invocation runs in: the store behind the client, the deletion
    cache of the reconciler, the number of clock readings taken so far and
    the ghost log of client calls. *)
Record World (S : Type) : Type := mkWorld {
  store : S;
  recentlyDeleted : recentlyDeletedCache.t;
  ticks : nat;
  calls : list Call
}.
Arguments mkWorld {S}.
Arguments store {S}.
Arguments recentlyDeleted {S}.
Arguments ticks {S}.
Arguments calls {S}.

(** Computations of the reconciler. *)
Definition M (S A : Type) : Type := World S → A * World S.

Definition ret {S A : Type} (a : A) : M S A := λ w, (a, w).

Definition bind {S A B : Type} (m : M S A) (k : A → M S B) : M S B :=
  λ w, let '(a, w') := m w in k a w'.

Notation "'do' x <- m ; k" := (bind m (λ x, k))
  (at level 10, x name, m at level 100, k at level 200).
Notation "'run' m ; k" := (bind m (λ _, k))
  (at level 10, m at level 100, k at level 200).

Section Reconciler.

Context {S : Type}.

(** The client the reconciler embeds. *)
Variable client : Client S.

(** The clock: [clock n] is what the [n]-th call of [time.Now()] reads. *)
Variable clock : nat → Z.

(** Package [workload] and package [cloudsqlapi] are not part of this file;
    their functions and constants are taken as parameters. *)
Variable WorkloadForKind : string → Workload.t + error.t.
Variable WorkloadListForKind : string → WorkloadList.t + error.t.
Variable LabelsSelector : WorkloadSelectorSpec.t → Selector + error.t.
Variable AnnotationPrefix : string.
Variable ConditionUpToDate : string.
Variable ConditionWorkloadUpToDate : string.
Variable ReasonNoWorkloadsFound : string.
Variable ReasonFinishedReconcile : string.
Variable ReasonUpToDate : string.

Definition finalizerName : string :=
  AnnotationPrefix +:+ "/AuthProxyWorkload-finalizer".

(** *** Primitive computations *)

Definition logCall (c : Call) (w : World S) : World S :=
  mkWorld (store w) (recentlyDeleted w) (ticks w) (calls w ++ [c]).

Definition r_Get (key : NamespacedName)
  : M S (AuthProxyWorkload.t + error.t) :=
  λ w, (Get client key (store w), logCall (CallGet key) w).

Definition r_GetObject (key : NamespacedName) (obj : Workload.t)
  : M S (Workload.t + error.t) :=
  λ w, (GetObject client key obj (store w), logCall (CallGetObject key obj) w).

Definition r_List (l : WorkloadList.t) (ns : string) (sel : Selector)
  : M S (WorkloadList.t + error.t) :=
  λ w, (List client l ns sel (store w), logCall (CallList l ns sel) w).

Definition r_Update (obj : AuthProxyWorkload.t) : M S (option error.t) :=
  λ w, let '(err, s') := Update client obj (store w) in
       (err, mkWorld s' (recentlyDeleted w) (ticks w)
               (calls w ++ [CallUpdate obj])).

Definition r_StatusPatch (obj orig : AuthProxyWorkload.t)
  : M S (option error.t) :=
  λ w, let '(err, s') := StatusPatch client obj orig (store w) in
       (err, mkWorld s' (recentlyDeleted w) (ticks w)
               (calls w ++ [CallStatusPatch obj orig])).

Definition recentlyDeleted_get (k : NamespacedName) : M S bool :=
  λ w, (recentlyDeletedCache.get (recentlyDeleted w) k, w).

Definition recentlyDeleted_set (k : NamespacedName) (deleted : bool)
  : M S unit :=
  λ w, (tt, mkWorld (store w)
              (recentlyDeletedCache.set (recentlyDeleted w) k deleted)
              (ticks w) (calls w)).

(** Whether [replaceCondition] reaches one of its calls of [time.Now()]. *)
Definition readsClock (conds : list Condition.t) (newC : Condition.t)
  : bool :=
  match findCondition conds (Condition.Type_ newC) with
  | None => true
  | Some c =>
      negb (bool_decide (Condition.Status c = Condition.Status newC)
            && negb (Time_IsZero (Condition.LastTransitionTime c)))
  end.

(** [replaceCondition] run against the clock of the world. *)
Definition r_replaceCondition (conds : list Condition.t)
    (newC : Condition.t) : M S (list Condition.t) :=
  λ w, (replaceCondition (clock (ticks w)) conds newC,
        if readsClock conds newC
        then mkWorld (store w) (recentlyDeleted w) (Datatypes.S (ticks w))
               (calls w)
        else w).

(** *** Workload lookup *)

(** [loadByName] *)
Definition loadByName (workloadSelector : WorkloadSelectorSpec.t)
    (ns : string) : M S (list Workload.t + error.t) :=
  let key : NamespacedName := (ns, WorkloadSelectorSpec.Name workloadSelector) in
  match WorkloadForKind (WorkloadSelectorSpec.Kind workloadSelector) with
  | inr err =>
      ret (inr (Errorf ("unable to load by name " +:+ key.1 +:+ "/" +:+ key.2
                        +:+ ":  " +:+ error.Error err)))
  | inl wl =>
      do r <- r_GetObject key wl;
      match r with
      | inr err =>
          if error.IsNotFound err then ret (inl [])
          else ret (inr (Errorf ("unable to load resource by name " +:+ key.1
                                 +:+ "/" +:+ key.2 +:+ ":  "
                                 +:+ error.Error err)))
      | inl wl' => ret (inl [wl'])
      end
  end.

(** [loadByLabelSelector] *)
Definition loadByLabelSelector (workloadSelector : WorkloadSelectorSpec.t)
    (ns : string) : M S (list Workload.t + error.t) :=
  match LabelsSelector workloadSelector with
  | inr err => ret (inr err)
  | inl sel =>
      let gk_Kind :=
        ParseKindArg_Kind (WorkloadSelectorSpec.Kind workloadSelector) in
      match WorkloadListForKind gk_Kind with
      | inr err => ret (inr err)
      | inl wl =>
          do r <- r_List wl ns sel;
          match r with
          | inr err => ret (inr err)
          | inl wl' => ret (inl (WorkloadList.Workloads wl'))
          end
      end
  end.

(** [listWorkloads] *)
Definition listWorkloads (workloadSelector : WorkloadSelectorSpec.t)
    (ns : string) : M S (list Workload.t + error.t) :=
  let ns :=
    if bool_decide (WorkloadSelectorSpec.Namespace workloadSelector ≠ "")
    then WorkloadSelectorSpec.Namespace workloadSelector
    else ns in
  if bool_decide (WorkloadSelectorSpec.Name workloadSelector ≠ "")
  then loadByName workloadSelector ns
  else loadByLabelSelector workloadSelector ns.

(** The loop of [updateWorkloadStatus] over the matching workloads; it
    works on the resource in memory. *)
Fixpoint markWorkloads (matching : list Workload.t)
    (resource : AuthProxyWorkload.t) : M S AuthProxyWorkload.t :=
  match matching with
  | [] => ret resource
  | wl :: rest =>
      let s := newStatus wl in
      do conds <- r_replaceCondition (WorkloadStatus.Conditions s)
          {| Condition.Type_ := ConditionWorkloadUpToDate;
             Condition.Status := ConditionTrue;
             Condition.ObservedGeneration :=
               AuthProxyWorkload.GetGeneration resource;
             Condition.LastTransitionTime := None;
             Condition.Reason := ReasonUpToDate;
             Condition.Message := "No update needed for this workload" |};
      let s := WorkloadStatus.setConditions s conds in
      markWorkloads rest
        (AuthProxyWorkload.setWorkloadStatus resource
           (replaceStatus
              (AuthProxyWorkloadStatus.WorkloadStatus
                 (AuthProxyWorkload.Status resource)) s))
  end.

(** [updateWorkloadStatus]: the result and the resource as the call leaves
    it in memory. *)
Definition updateWorkloadStatus (resource : AuthProxyWorkload.t)
  : M S ((list Workload.t + error.t) * AuthProxyWorkload.t) :=
  do r <- listWorkloads (AuthProxyWorkload.Spec_Workload resource)
            (AuthProxyWorkload.GetNamespace resource);
  match r with
  | inr err => ret (inr err, resource)
  | inl matching =>
      do resource' <- markWorkloads matching resource;
      ret (inl matching, resource')
  end.

(** *** The reconcile loop *)

(** [doDelete] *)
Definition doDelete (resource : AuthProxyWorkload.t)
  : M S (Result.t * option error.t) :=
  do r <- updateWorkloadStatus resource;
  let '(res, resource) := r in
  match res with
  | inr err => ret (requeueNow, Some err)
  | inl _ =>
      if ContainsFinalizer resource finalizerName then
        let resource := RemoveFinalizer resource finalizerName in
        do err <- r_Update resource;
        match err with
        | Some e => ret (noRequeue, Some e)
        | None => ret (noRequeue, None)
        end
      else ret (noRequeue, None)
  end.

(** [applyFinalizer]: both branches return [requeueNow] and [err]. *)
Definition applyFinalizer (resource : AuthProxyWorkload.t)
  : M S (Result.t * option error.t) :=
  let resource := AddFinalizer resource finalizerName in
  do err <- r_Update resource;
  match err with
  | Some e => ret (requeueNow, Some e)
  | None => ret (requeueNow, None)
  end.

(** [patchAuthProxyWorkloadStatus]: the status patch, then the resource is
    read again into [orig]. *)
Definition patchAuthProxyWorkloadStatus (resource orig : AuthProxyWorkload.t)
  : M S (option error.t) :=
  do err <- r_StatusPatch resource orig;
  match err with
  | Some e => ret (Some e)
  | None =>
      do r <- r_Get (AuthProxyWorkload.GetNamespace resource,
                     AuthProxyWorkload.GetName resource);
      match r with
      | inr e => ret (Some e)
      | inl _ => ret None
      end
  end.

(** [reconcileResult] *)
Definition reconcileResult (resource orig : AuthProxyWorkload.t)
    (reason message : string) : M S (Result.t * option error.t) :=
  do conds <- r_replaceCondition
      (AuthProxyWorkloadStatus.Conditions (AuthProxyWorkload.Status resource))
      {| Condition.Type_ := ConditionUpToDate;
         Condition.Status := ConditionTrue;
         Condition.ObservedGeneration :=
           AuthProxyWorkload.GetGeneration resource;
         Condition.LastTransitionTime := None;
         Condition.Reason := reason;
         Condition.Message := message |};
  let resource := AuthProxyWorkload.setConditions resource conds in
  do err <- patchAuthProxyWorkloadStatus resource orig;
  match err with
  | Some e => ret (noRequeue, Some e)
  | None => ret (noRequeue, None)
  end.

(** [fmt.Sprintf] of the message of state 3.1. *)
Definition reconciledMessage (n : nat) : string :=
  "Reconciled " +:+ pretty (N.of_nat n) +:+ " matching workloads complete".

(** [doCreateUpdate] *)
Definition doCreateUpdate (resource : AuthProxyWorkload.t)
  : M S (Result.t * option error.t) :=
  let orig := resource in
  if negb (ContainsFinalizer resource finalizerName) then
    applyFinalizer resource
  else
    do r <- updateWorkloadStatus resource;
    let '(res, resource) := r in
    match res with
    | inr err => ret (requeueWithDelay, Some err)
    | inl allWorkloads =>
        if bool_decide (length allWorkloads = 0%nat) then
          reconcileResult resource orig ReasonNoWorkloadsFound
            "No workload updates needed"
        else
          reconcileResult resource orig ReasonFinishedReconcile
            (reconciledMessage (length allWorkloads))
    end.

(** [Reconcile] *)
Definition Reconcile (req : NamespacedName)
  : M S (Result.t * option error.t) :=
  do r <- r_Get req;
  match r with
  | inr err =>
      do deleted <- recentlyDeleted_get req;
      if deleted then ret (noRequeue, None)
      else ret (requeueWithDelay, Some err)
  | inl resource =>
      if negb (Time_IsZero
                 (ObjectMeta.DeletionTimestamp (AuthProxyWorkload.Meta resource)))
      then
        run recentlyDeleted_set req true;
        doDelete resource
      else
        run recentlyDeleted_set req false;
        doCreateUpdate resource
  end.

End Reconciler.

(** ** Notions used by the statements *)

(** How many conditions of a list have the type [ty]. *)
Definition typeCount (conds : list Condition.t) (ty : string) : nat :=
  length (filter (λ c, Condition.Type_ c = ty) conds).

(** The data-model invariant of a list of workload statuses: at most one
    entry per (kind, version, namespace, name). *)
Definition uniqueKeys (statuses : list WorkloadStatus.t) : Prop :=
  NoDup (WorkloadStatus.key <$> statuses).

(** The deletion cache after a history of [set] calls, oldest first. *)
Definition recorded (history : list (NamespacedName * bool))
  : recentlyDeletedCache.t :=
  foldl (λ c e, recentlyDeletedCache.set c e.1 e.2)
    recentlyDeletedCache.empty history.

(** What a history recorded last for the key [k]. *)
Fixpoint lastRecorded (history : list (NamespacedName * bool))
    (k : NamespacedName) : option bool :=
  match history with
  | [] => None
  | e :: rest =>
      match lastRecorded rest k with
      | Some b => Some b
      | None => if bool_decide (e.1 = k) then Some e.2 else None
      end
  end.

(** The calls of one computation: the log it leaves, without the log it
    started from. *)
Definition newCalls {S A : Type} (m : M S A) (w : World S) : list Call :=
  drop (length (calls w)) (calls (m w).2).

(** The read call a lookup for the selector [sel] may issue: a point get
    when the selector names its target, a list call when it does not. *)
Definition isLookupCall (sel : WorkloadSelectorSpec.t) (c : Call) : bool :=
  match c with
  | CallGetObject _ _ => bool_decide (WorkloadSelectorSpec.Name sel ≠ "")
  | CallList _ _ _ => bool_decide (WorkloadSelectorSpec.Name sel = "")
  | _ => false
  end.

(** Two copies of a resource that differ at most in
    [Status.WorkloadStatus]. *)
Definition sameButWorkloadStatus (r r' : AuthProxyWorkload.t) : Prop :=
  AuthProxyWorkload.Meta r' = AuthProxyWorkload.Meta r
  ∧ AuthProxyWorkload.Spec_Workload r' = AuthProxyWorkload.Spec_Workload r
  ∧ AuthProxyWorkloadStatus.Conditions (AuthProxyWorkload.Status r')
    = AuthProxyWorkloadStatus.Conditions (AuthProxyWorkload.Status r).

(** The world in which [Reconcile] enters [doDelete] or [doCreateUpdate]:
    the fetch is logged and the deletion cache updated. *)
Definition afterFetch {S : Type} (req : NamespacedName) (deleted : bool)
    (w : World S) : World S :=
  (recentlyDeleted_set req deleted (logCall (CallGet req) w)).2.

(** What the delete path may issue for the fetched [resource]: reads, and
    updates of an object without the finalizer that carries the conditions
    of [resource]; never a status patch. *)
Definition isDeletePathCall (finalizer : string)
    (resource : AuthProxyWorkload.t) (c : Call) : Prop :=
  match c with
  | CallStatusPatch _ _ => False
  | CallUpdate obj =>
      ContainsFinalizer obj finalizer = false
      ∧ AuthProxyWorkloadStatus.Conditions (AuthProxyWorkload.Status obj)
        = AuthProxyWorkloadStatus.Conditions (AuthProxyWorkload.Status resource)
  | _ => True
  end.

(** A step that leaves the store and the deletion cache alone and adds the
    calls [cs] to the log. *)
Definition readStep {S : Type} (w w' : World S) (cs : list Call) : Prop :=
  store w' = store w
  ∧ recentlyDeleted w' = recentlyDeleted w
  ∧ calls w' = calls w ++ cs.

(** ** A sample cluster

    A small concrete store and client, used to evaluate the reconciler on
    concrete inputs. *)

Module Sample.

Record Store : Type := mkStore {
  resources : list (NamespacedName * AuthProxyWorkload.t);
  objects : list Workload.t;
  targetsUnavailable : bool;
  updateConflict : bool
}.

Definition notFound : error.t :=
  {| error.IsNotFound := true; error.Error := "not found" |}.
Definition conflict : error.t :=
  {| error.IsNotFound := false; error.Error := "conflict" |}.
Definition unavailable : error.t :=
  {| error.IsNotFound := false; error.Error := "unavailable" |}.

Fixpoint lookupResource (rs : list (NamespacedName * AuthProxyWorkload.t))
    (key : NamespacedName) : option AuthProxyWorkload.t :=
  match rs with
  | [] => None
  | (k, r) :: rest =>
      if bool_decide (k = key) then Some r else lookupResource rest key
  end.

Fixpoint storeResource (rs : list (NamespacedName * AuthProxyWorkload.t))
    (key : NamespacedName) (r : AuthProxyWorkload.t)
  : list (NamespacedName * AuthProxyWorkload.t) :=
  match rs with
  | [] => [(key, r)]
  | (k, r0) :: rest =>
      if bool_decide (k = key) then (k, r) :: rest
      else (k, r0) :: storeResource rest key r
  end.

Definition isObject (kind : string) (key : NamespacedName) (o : Workload.t)
  : bool :=
  bool_decide (Workload.Kind o = kind)
  && bool_decide ((Workload.Namespace o, Workload.Name o) = key).

Definition keyOf (r : AuthProxyWorkload.t) : NamespacedName :=
  (AuthProxyWorkload.GetNamespace r, AuthProxyWorkload.GetName r).

Definition client : Client Store :=
  {| Get := λ key s,
       match lookupResource (resources s) key with
       | Some r => inl r
       | None => inr notFound
       end;
     GetObject := λ key obj s,
       if targetsUnavailable s then inr unavailable
       else
         match List.find (isObject (Workload.Kind obj) key) (objects s) with
         | Some o => inl o
         | None => inr notFound
         end;
     List := λ l ns sel s,
       if targetsUnavailable s then inr unavailable
       else inl {| WorkloadList.Kind := WorkloadList.Kind l;
                   WorkloadList.Workloads :=
                     List.filter
                       (λ o, bool_decide (Workload.Kind o = WorkloadList.Kind l)
                             && bool_decide (Workload.Namespace o = ns))
                       (objects s) |};
     Update := λ obj s,
       if updateConflict s then (Some conflict, s)
       else (None, mkStore (storeResource (resources s) (keyOf obj) obj)
                     (objects s) (targetsUnavailable s) (updateConflict s));
     StatusPatch := λ obj orig s,
       if updateConflict s then (Some conflict, s)
       else
         match lookupResource (resources s) (keyOf obj) with
         | None => (Some notFound, s)
         | Some r =>
             (None,
              mkStore
                (storeResource (resources s) (keyOf obj)
                   {| AuthProxyWorkload.Meta := AuthProxyWorkload.Meta r;
                      AuthProxyWorkload.Spec_Workload :=
                        AuthProxyWorkload.Spec_Workload r;
                      AuthProxyWorkload.Status :=
                        AuthProxyWorkload.Status obj |})
                (objects s) (targetsUnavailable s) (updateConflict s))
         end |}.

Definition clock (n : nat) : Z := 1000 + Z.of_nat n.

Definition emptyObject (kind version : string) : Workload.t :=
  {| Workload.Kind := kind; Workload.Version := version;
     Workload.Namespace := ""; Workload.Name := "" |}.

(** Modelled from the spec: the registry of package [workload], which maps
    a kind to a constructor of an empty typed object or typed list and
    answers an error for an unknown kind; here with two kinds. *)
Definition WorkloadForKind (kind : string) : Workload.t + error.t :=
  if bool_decide (kind = "Deployment") then inl (emptyObject kind "apps/v1")
  else if bool_decide (kind = "Pod") then inl (emptyObject kind "v1")
  else inr (Errorf ("unknown kind " +:+ kind)).

Definition WorkloadListForKind (kind : string) : WorkloadList.t + error.t :=
  if bool_decide (kind = "Deployment") || bool_decide (kind = "Pod")
  then inl {| WorkloadList.Kind := kind; WorkloadList.Workloads := [] |}
  else inr (Errorf ("unknown kind " +:+ kind)).

Definition LabelsSelector (sel : WorkloadSelectorSpec.t)
  : Selector + error.t :=
  match WorkloadSelectorSpec.Selector sel with
  | None => inl []
  | Some ls =>
      inl (((λ kv, (kv.1, "in", [kv.2])) <$> LabelSelector.MatchLabels ls)
           ++ LabelSelector.MatchExpressions ls)
  end.

Definition AnnotationPrefix : string := "cloudsql.cloud.google.com".

(** The reconciler over the sample client. *)
Definition Reconcile : NamespacedName → M Store (Result.t * option error.t) :=
  Reconcile client clock WorkloadForKind WorkloadListForKind LabelsSelector
    AnnotationPrefix "UpToDate" "WorkloadUpToDate" "NoWorkloadsFound"
    "FinishedReconcile" "UpToDate".

Definition finalizer : string := finalizerName AnnotationPrefix.

Definition selectorByName (kind name : string) : WorkloadSelectorSpec.t :=
  {| WorkloadSelectorSpec.Kind := kind;
     WorkloadSelectorSpec.Namespace := "";
     WorkloadSelectorSpec.Name := name;
     WorkloadSelectorSpec.Selector := None |}.

(** A resource named "db" in namespace "default". *)
Definition resource (deleted : Time) (finalizers : list string)
    (sel : WorkloadSelectorSpec.t) : AuthProxyWorkload.t :=
  {| AuthProxyWorkload.Meta :=
       {| ObjectMeta.Name := "db"; ObjectMeta.Namespace := "default";
          ObjectMeta.Generation := 1;
          ObjectMeta.DeletionTimestamp := deleted;
          ObjectMeta.Finalizers := finalizers |};
     AuthProxyWorkload.Spec_Workload := sel;
     AuthProxyWorkload.Status :=
       {| AuthProxyWorkloadStatus.Conditions := [];
          AuthProxyWorkloadStatus.WorkloadStatus := [] |} |}.

Definition req : NamespacedName := ("default", "db").

Definition deployment (name : string) : Workload.t :=
  {| Workload.Kind := "Deployment"; Workload.Version := "apps/v1";
     Workload.Namespace := "default"; Workload.Name := name |}.

(** A world holding the one resource [r] and the given target objects. *)
Definition world (r : AuthProxyWorkload.t) (objs : list Workload.t)
    (cache : recentlyDeletedCache.t) : World Store :=
  mkWorld (mkStore [(req, r)] objs false false) cache 0 [].

Definition condition (ty : string) (status : ConditionStatus)
    (ts : Time) (reason : string) : Condition.t :=
  {| Condition.Type_ := ty; Condition.Status := status;
     Condition.ObservedGeneration := 1;
     Condition.LastTransitionTime := ts;
     Condition.Reason := reason; Condition.Message := "" |}.

(** A selector by kind alone: every object of the kind in the namespace. *)
Definition selectorByKind (kind : string) : WorkloadSelectorSpec.t :=
  {| WorkloadSelectorSpec.Kind := kind;
     WorkloadSelectorSpec.Namespace := "";
     WorkloadSelectorSpec.Name := "";
     WorkloadSelectorSpec.Selector := None |}.

(** The resource as the store holds it after an invocation from [w]. *)
Definition storedAfter (w : World Store) : option AuthProxyWorkload.t :=
  lookupResource (resources (store (Reconcile req w).2)) req.

(** A world whose store holds no resource and no target. *)
Definition emptyWorld (cache : recentlyDeletedCache.t) : World Store :=
  mkWorld (mkStore [] [] false false) cache 0 [].

(** The resource, deleted at instant 5 and holding the finalizer, selects
    the deployment "web", which exists. *)
Definition deletedResource : AuthProxyWorkload.t :=
  resource (Some 5) [finalizer] (selectorByName "Deployment" "web").

Definition deletedWorld : World Store :=
  world deletedResource [deployment "web"] recentlyDeletedCache.empty.

(** The same cluster while reads of the targets fail. *)
Definition outageWorld : World Store :=
  mkWorld (mkStore [(req, deletedResource)] [deployment "web"] true false)
    recentlyDeletedCache.empty 0 [].

End Sample.

(** ** Further notions and a second sample client *)

(** The selector [sel] with another label selector. *)
Definition withSelector (sel : WorkloadSelectorSpec.t)
    (ls : option LabelSelector.t) : WorkloadSelectorSpec.t :=
  {| WorkloadSelectorSpec.Kind := WorkloadSelectorSpec.Kind sel;
     WorkloadSelectorSpec.Namespace := WorkloadSelectorSpec.Namespace sel;
     WorkloadSelectorSpec.Name := WorkloadSelectorSpec.Name sel;
     WorkloadSelectorSpec.Selector := ls |}.

(** A status entry as [updateWorkloadStatus] marks it: its one condition is
    of type [ty] with status true, generation [gen], reason [reason] and a
    timestamp that is set. *)
Definition isMarked (ty reason : string) (gen : Z) (e : WorkloadStatus.t)
  : Prop :=
  ∃ t : Z,
    WorkloadStatus.Conditions e
    = [{| Condition.Type_ := ty;
          Condition.Status := ConditionTrue;
          Condition.ObservedGeneration := gen;
          Condition.LastTransitionTime := Some t;
          Condition.Reason := reason;
          Condition.Message := "No update needed for this workload" |}].

(** A status entry whose one condition is the mark of
    [updateWorkloadStatus] with the timestamp [t]. *)
Definition isMarkedAt (ty reason : string) (gen : Z) (t : Z)
    (e : WorkloadStatus.t) : Prop :=
  WorkloadStatus.Conditions e
  = [{| Condition.Type_ := ty;
        Condition.Status := ConditionTrue;
        Condition.ObservedGeneration := gen;
        Condition.LastTransitionTime := Some t;
        Condition.Reason := reason;
        Condition.Message := "No update needed for this workload" |}].

(** The namespace a call for targets asks in. *)
Definition callNamespace (c : Call) : option string :=
  match c with
  | CallGetObject key _ => Some key.1
  | CallList _ ns _ => Some ns
  | _ => None
  end.

(** The namespace a lookup uses: the one of the selector when it has one. *)
Definition lookupNamespace (sel : WorkloadSelectorSpec.t) (ns : string)
  : string :=
  if bool_decide (WorkloadSelectorSpec.Namespace sel ≠ "")
  then WorkloadSelectorSpec.Namespace sel else ns.

Module Finalizing.

(** The sample client with the API server's treatment of finalizers: an
    update that leaves a resource marked deleted without any finalizer
    removes the resource from the store. *)
Fixpoint removeResource (rs : list (NamespacedName * AuthProxyWorkload.t))
    (key : NamespacedName) : list (NamespacedName * AuthProxyWorkload.t) :=
  match rs with
  | [] => []
  | (k, r) :: rest =>
      if bool_decide (k = key) then removeResource rest key
      else (k, r) :: removeResource rest key
  end.

Definition client : Client Sample.Store :=
  {| Get := Get Sample.client;
     GetObject := GetObject Sample.client;
     List := List Sample.client;
     Update := λ obj s,
       if negb (Time_IsZero
                  (ObjectMeta.DeletionTimestamp (AuthProxyWorkload.Meta obj)))
          && bool_decide (AuthProxyWorkload.GetFinalizers obj = [])
          && negb (Sample.updateConflict s)
       then (None,
             Sample.mkStore
               (removeResource (Sample.resources s) (Sample.keyOf obj))
               (Sample.objects s) (Sample.targetsUnavailable s)
               (Sample.updateConflict s))
       else Update Sample.client obj s;
     StatusPatch := StatusPatch Sample.client |}.

Definition Reconcile : NamespacedName → M Sample.Store (Result.t * option error.t) :=
  Reconcile client Sample.clock Sample.WorkloadForKind
    Sample.WorkloadListForKind Sample.LabelsSelector Sample.AnnotationPrefix
    "UpToDate" "WorkloadUpToDate" "NoWorkloadsFound" "FinishedReconcile"
    "UpToDate".

End Finalizing.

Module Merging.

(** A live resource that selects every deployment and already holds two
    status entries: one for "api", which is no target any more, and one
    for "web". *)
Definition resource : AuthProxyWorkload.t :=
  AuthProxyWorkload.setWorkloadStatus
    (Sample.resource None [Sample.finalizer]
       (Sample.selectorByKind "Deployment"))
    [newStatus (Sample.deployment "api");
     WorkloadStatus.setConditions (newStatus (Sample.deployment "web"))
       [Sample.condition "WorkloadUpToDate" ConditionTrue (Some 3)
          "UpToDate"]].

(** The cluster holds the deployments "web" and "worker". *)
Definition world : World Sample.Store :=
  Sample.world resource
    [Sample.deployment "web"; Sample.deployment "worker"]
    recentlyDeletedCache.empty.

(** The status entries after [updateWorkloadStatus]. *)
Definition statusesAfter : list WorkloadStatus.t :=
  AuthProxyWorkloadStatus.WorkloadStatus
    (AuthProxyWorkload.Status
       (updateWorkloadStatus Sample.client Sample.clock
          Sample.WorkloadForKind Sample.WorkloadListForKind
          Sample.LabelsSelector "WorkloadUpToDate" "UpToDate"
          resource world).1.2).

End Merging.

(** * Properties *)

(** ** Conditions *)

Section ConditionFacts.

Implicit Types (now : Z) (conds : list Condition.t) (c newC : Condition.t).

Lemma setLastTransitionTime_Type c ts :
  Condition.Type_ (Condition.setLastTransitionTime c ts) = Condition.Type_ c.
Proof. reflexivity. Qed.

Lemma setLastTransitionTime_twice c ts ts' :
  Condition.setLastTransitionTime (Condition.setLastTransitionTime c ts) ts'
  = Condition.setLastTransitionTime c ts'.
Proof. reflexivity. Qed.

Lemma setLastTransitionTime_same c :
  Condition.setLastTransitionTime c (Condition.LastTransitionTime c) = c.
Proof. by destruct c. Qed.

(** A stamped or preserved timestamp is never the zero time. *)
Lemma transitionTime_not_zero now c newC :
  Time_IsZero (transitionTime now c newC) = false.
Proof.
  unfold transitionTime.
  destruct (bool_decide _); simpl; [|done].
  by destruct (Condition.LastTransitionTime c).
Qed.

(** The timestamp is preserved exactly under the guard of the source. *)
Lemma transitionTime_keep now c newC :
  Condition.Status c = Condition.Status newC →
  Condition.LastTransitionTime c ≠ None →
  transitionTime now c newC = Condition.LastTransitionTime c.
Proof.
  intros Hst Hts. unfold transitionTime.
  rewrite bool_decide_eq_true_2 by done.
  by destruct (Condition.LastTransitionTime c).
Qed.

Lemma transitionTime_stamp now c newC :
  Condition.Status c ≠ Condition.Status newC
  ∨ Condition.LastTransitionTime c = None →
  transitionTime now c newC = NewTime now.
Proof.
  intros [Hst|Hts]; unfold transitionTime.
  - by rewrite bool_decide_eq_false_2.
  - rewrite Hts. simpl. by rewrite andb_false_r.
Qed.

(** The condition stored for the type of [newC] after the call. *)
Lemma findCondition_replaceCondition now conds newC :
  findCondition (replaceCondition now conds newC) (Condition.Type_ newC)
  = Some (Condition.setLastTransitionTime newC
            match findCondition conds (Condition.Type_ newC) with
            | Some c => transitionTime now c newC
            | None => NewTime now
            end).
Proof.
  induction conds as [|c rest IH]; simpl.
  - by rewrite bool_decide_eq_true_2.
  - destruct (decide (Condition.Type_ c = Condition.Type_ newC)) as [Heq|Hne].
    + rewrite (bool_decide_eq_false_2 (_ ≠ _)) by tauto.
      rewrite (bool_decide_eq_true_2 _ Heq). simpl.
      by rewrite bool_decide_eq_true_2.
    + rewrite (bool_decide_eq_true_2 (_ ≠ _)) by done.
      rewrite (bool_decide_eq_false_2 _ Hne). simpl.
      by rewrite (bool_decide_eq_false_2 _ Hne).
Qed.

(** Another type is looked up as before. *)
Lemma findCondition_replaceCondition_ne now conds newC ty :
  ty ≠ Condition.Type_ newC →
  findCondition (replaceCondition now conds newC) ty = findCondition conds ty.
Proof.
  intros Hty. induction conds as [|c rest IH]; simpl.
  - by rewrite bool_decide_eq_false_2.
  - case_bool_decide as Hc; simpl.
    + by rewrite IH.
    + rewrite bool_decide_eq_false_2 by congruence.
      by rewrite bool_decide_eq_false_2 by congruence.
Qed.

Lemma typeCount_cons c conds ty :
  typeCount (c :: conds) ty
  = ((if bool_decide (Condition.Type_ c = ty) then 1 else 0)
     + typeCount conds ty)%nat.
Proof.
  unfold typeCount. rewrite filter_cons.
  rewrite bool_decide_decide. by destruct (decide _).
Qed.

Lemma typeCount_replaceCondition now conds newC :
  typeCount (replaceCondition now conds newC) (Condition.Type_ newC)
  = Nat.max 1 (typeCount conds (Condition.Type_ newC)).
Proof.
  induction conds as [|c rest IH]; simpl.
  - rewrite typeCount_cons. by rewrite bool_decide_eq_true_2.
  - case_bool_decide as Hc.
    + rewrite !typeCount_cons, IH. by rewrite bool_decide_eq_false_2.
    + rewrite !typeCount_cons. simpl.
      rewrite !bool_decide_eq_true_2 by done. lia.
Qed.

Lemma typeCount_zero_find conds ty :
  typeCount conds ty = 0%nat ↔ findCondition conds ty = None.
Proof.
  induction conds as [|c rest IH]; simpl; [done|].
  rewrite typeCount_cons. case_bool_decide; [split; [lia|done]|].
  simpl. apply IH.
Qed.

Lemma replaceCondition_lookup_other now conds newC i c :
  Condition.Type_ c ≠ Condition.Type_ newC →
  replaceCondition now conds newC !! i = Some c ↔ conds !! i = Some c.
Proof.
  intros Hc. revert i. induction conds as [|c0 rest IH]; intros i; simpl.
  - destruct i as [|i]; simpl; [|done].
    split; [|done]. intros [= <-]. by destruct Hc.
  - case_bool_decide as Hc0.
    + destruct i as [|i]; simpl; [done|]. apply IH.
    + destruct i as [|i]; simpl; [|done].
      split; intros [= <-]; [by destruct Hc|congruence].
Qed.

Lemma replaceCondition_length now conds newC :
  length (replaceCondition now conds newC)
  = match findCondition conds (Condition.Type_ newC) with
    | Some _ => length conds
    | None => Datatypes.S (length conds)
    end.
Proof.
  induction conds as [|c rest IH]; simpl; [done|].
  case_bool_decide as Hc.
  - rewrite bool_decide_eq_false_2 by done. simpl. rewrite IH.
    by destruct (findCondition rest _).
  - by rewrite bool_decide_eq_true_2.
Qed.

End ConditionFacts.

(** C3, as the specification states it, fails: a stored condition whose
    timestamp is the zero time gets a fresh timestamp although the status
    is the one already stored.  The guard of [replaceCondition] asks for the
    same status and a timestamp that is set. *)
Lemma replaceCondition_restamps_zero_time :
  ¬ (∀ (now : Z) (conds : list Condition.t) (newC prior stored : Condition.t),
       findCondition conds (Condition.Type_ newC) = Some prior →
       findCondition (replaceCondition now conds newC) (Condition.Type_ newC)
       = Some stored →
       (Condition.LastTransitionTime stored
        ≠ Condition.LastTransitionTime prior
        ↔ Condition.Status prior ≠ Condition.Status newC)).
Proof.
  intros Hclaim.
  pose (prior := Sample.condition "UpToDate" ConditionTrue None "Old").
  pose (newC := Sample.condition "UpToDate" ConditionTrue None "New").
  destruct (Hclaim 7 [prior] newC prior
              (Condition.setLastTransitionTime newC (Some 7))
              eq_refl eq_refl) as [Hchanged _].
  by apply Hchanged.
Qed.

(** C3 (amended): when a condition of the type of the new condition is
    stored, [replaceCondition] keeps the stored lastTransitionTime if the
    status is the stored one and the stored timestamp is set, so an edit of
    reason or message alone never changes a set timestamp; otherwise it
    stamps the clock reading.  Hence, for a clock reading other than the
    stored timestamp, lastTransitionTime changes if and only if the status
    differs from the stored one or the stored timestamp is the zero time. *)
Theorem replaceCondition_transition_time
    (now : Z) (conds : list Condition.t) (newC prior : Condition.t) :
  findCondition conds (Condition.Type_ newC) = Some prior →
  ∃ stored,
    findCondition (replaceCondition now conds newC) (Condition.Type_ newC)
    = Some stored
    ∧ (Condition.Status prior = Condition.Status newC →
       Condition.LastTransitionTime prior ≠ None →
       Condition.LastTransitionTime stored
       = Condition.LastTransitionTime prior)
    ∧ (Condition.Status prior ≠ Condition.Status newC
       ∨ Condition.LastTransitionTime prior = None →
       Condition.LastTransitionTime stored = NewTime now)
    ∧ (Condition.LastTransitionTime prior ≠ NewTime now →
       (Condition.LastTransitionTime stored
        ≠ Condition.LastTransitionTime prior
        ↔ Condition.Status prior ≠ Condition.Status newC
          ∨ Condition.LastTransitionTime prior = None)).
Proof.
  intros Hprior. eexists. rewrite findCondition_replaceCondition, Hprior.
  split; [reflexivity|]. simpl.
  split; [apply transitionTime_keep|].
  split; [apply transitionTime_stamp|].
  intros Hfresh. split.
  - intros Hchanged.
    destruct (decide (Condition.Status prior = Condition.Status newC))
      as [Hst|Hst]; [|by left].
    destruct (Condition.LastTransitionTime prior) as [t|] eqn:Hts;
      [|by right].
    destruct Hchanged. rewrite <- Hts.
    apply transitionTime_keep; [done|]. by rewrite Hts.
  - intros Hguard. rewrite (transitionTime_stamp _ _ _ Hguard).
    by intros Heq.
Qed.

Lemma replaceCondition_transition_time_witness :
  ∃ stored,
    findCondition
      (replaceCondition 7
         [Sample.condition "UpToDate" ConditionTrue (Some 3) "Old"]
         (Sample.condition "UpToDate" ConditionTrue None "New"))
      "UpToDate" = Some stored
    ∧ Condition.LastTransitionTime stored = Some 3.
Proof.
  destruct (replaceCondition_transition_time 7
              [Sample.condition "UpToDate" ConditionTrue (Some 3) "Old"]
              (Sample.condition "UpToDate" ConditionTrue None "New")
              (Sample.condition "UpToDate" ConditionTrue (Some 3) "Old")
              eq_refl) as (stored & Hfind & Hkeep & _).
  exists stored. split; [exact Hfind|].
  apply Hkeep; [reflexivity|discriminate].
Defined.

(** C7: applying [replaceCondition] a second time with the same condition
    gives the list of the first application; the timestamp the first
    application left is the one that stays, whatever the clock reads at the
    second application. *)
Theorem replaceCondition_idempotent
    (now1 now2 : Z) (conds : list Condition.t) (newC : Condition.t) :
  replaceCondition now2 (replaceCondition now1 conds newC) newC
  = replaceCondition now1 conds newC.
Proof.
  assert (Hhead : ∀ ts, Time_IsZero ts = false →
            transitionTime now2 (Condition.setLastTransitionTime newC ts) newC
            = ts).
  { intros ts Hts. unfold transitionTime. simpl.
    rewrite bool_decide_eq_true_2 by done. by rewrite Hts. }
  induction conds as [|c rest IH]; simpl.
  - rewrite bool_decide_eq_false_2 by (intros H; by apply H).
    by rewrite Hhead.
  - case_bool_decide as Hc; simpl.
    + rewrite bool_decide_eq_true_2 by done. by rewrite IH.
    + rewrite bool_decide_eq_false_2 by (intros H; by apply H).
      by rewrite Hhead by apply transitionTime_not_zero.
Qed.

(** The same with the condition as the first application left it in memory:
    the caller's condition then carries some timestamp [ts]. *)
Lemma replaceCondition_again_stamped
    (now1 now2 : Z) (conds : list Condition.t) (newC : Condition.t)
    (ts : Time) :
  replaceCondition now2 (replaceCondition now1 conds newC)
    (Condition.setLastTransitionTime newC ts)
  = replaceCondition now1 conds newC.
Proof.
  induction conds as [|c rest IH]; simpl.
  - rewrite bool_decide_eq_false_2 by (intros H; by apply H).
    unfold transitionTime. simpl. by rewrite bool_decide_eq_true_2.
  - case_bool_decide as Hc; simpl.
    + rewrite bool_decide_eq_true_2 by done. by rewrite IH.
    + rewrite bool_decide_eq_false_2 by (intros H; by apply H).
      unfold transitionTime at 1. simpl.
      rewrite bool_decide_eq_true_2 by done.
      by rewrite transitionTime_not_zero.
Qed.

(** C9, as stated for every input list, fails: with two stored conditions
    of the type of the new condition the returned list still has two, the
    loop stops at the first. *)
Lemma replaceCondition_keeps_duplicates :
  ¬ (∀ (now : Z) (conds : list Condition.t) (newC : Condition.t),
       typeCount (replaceCondition now conds newC) (Condition.Type_ newC)
       = 1%nat).
Proof.
  intros Hclaim.
  specialize (Hclaim 7
    [Sample.condition "UpToDate" ConditionTrue (Some 3) "A";
     Sample.condition "UpToDate" ConditionFalse (Some 4) "B"]
    (Sample.condition "UpToDate" ConditionTrue None "New")).
  vm_compute in Hclaim. discriminate.
Qed.

(** C9 (amended): for an input list with at most one condition of the type
    of the new condition, the list returned by [replaceCondition] has
    exactly one condition of that type.  For every input list, a condition
    of another type is at a position of the result exactly when it was at
    that position of the input, and the length grows by one when the type
    was absent and stays when it was present. *)
Theorem replaceCondition_frame
    (now : Z) (conds : list Condition.t) (newC : Condition.t) :
  ((typeCount conds (Condition.Type_ newC) ≤ 1)%nat →
   typeCount (replaceCondition now conds newC) (Condition.Type_ newC)
   = 1%nat)
  ∧ (∀ i c, Condition.Type_ c ≠ Condition.Type_ newC →
            replaceCondition now conds newC !! i = Some c
            ↔ conds !! i = Some c)
  ∧ (findCondition conds (Condition.Type_ newC) = None →
     length (replaceCondition now conds newC) = Datatypes.S (length conds))
  ∧ (findCondition conds (Condition.Type_ newC) ≠ None →
     length (replaceCondition now conds newC) = length conds).
Proof.
  split; [|split; [|split]].
  - intros Hunique. rewrite typeCount_replaceCondition. lia.
  - intros i c Hc. by apply replaceCondition_lookup_other.
  - intros Hnone. by rewrite replaceCondition_length, Hnone.
  - intros Hsome. rewrite replaceCondition_length.
    by destruct (findCondition conds _).
Qed.

Lemma replaceCondition_frame_witness :
  typeCount
    (replaceCondition 7
       [Sample.condition "Ready" ConditionTrue (Some 2) "A";
        Sample.condition "UpToDate" ConditionFalse (Some 4) "B"]
       (Sample.condition "UpToDate" ConditionTrue None "New"))
    "UpToDate" = 1%nat
  ∧ length
      (replaceCondition 7
         [Sample.condition "UpToDate" ConditionTrue (Some 3) "A";
          Sample.condition "Ready" ConditionTrue (Some 2) "B";
          Sample.condition "UpToDate" ConditionFalse (Some 4) "C"]
         (Sample.condition "UpToDate" ConditionTrue None "New"))
    = 3%nat.
Proof.
  split.
  - refine (proj1 (replaceCondition_frame 7
      [Sample.condition "Ready" ConditionTrue (Some 2) "A";
       Sample.condition "UpToDate" ConditionFalse (Some 4) "B"]
      (Sample.condition "UpToDate" ConditionTrue None "New")) _).
    vm_compute. lia.
  - refine (proj2 (proj2 (proj2 (replaceCondition_frame 7
      [Sample.condition "UpToDate" ConditionTrue (Some 3) "A";
       Sample.condition "Ready" ConditionTrue (Some 2) "B";
       Sample.condition "UpToDate" ConditionFalse (Some 4) "C"]
      (Sample.condition "UpToDate" ConditionTrue None "New")))) _).
    discriminate.
Defined.

(** ** Workload statuses *)

Section StatusFacts.

Implicit Types (statuses : list WorkloadStatus.t) (s u : WorkloadStatus.t).

(** The test of the loop compares the identifying tuples. *)
Lemma sameWorkload_key s u :
  sameWorkload s u = true ↔ WorkloadStatus.key s = WorkloadStatus.key u.
Proof.
  unfold sameWorkload, WorkloadStatus.key.
  rewrite !andb_true_iff, !bool_decide_eq_true. split.
  - intros [[[-> ->] ->] ->]. done.
  - intros [= -> -> -> ->]. done.
Qed.

Lemma sameWorkload_false_key s u :
  sameWorkload s u = false ↔ WorkloadStatus.key s ≠ WorkloadStatus.key u.
Proof.
  rewrite <- sameWorkload_key. by destruct (sameWorkload s u).
Qed.

(** The slice the loop leaves: every matching slot holds the new entry. *)
Lemma replaceStatus_loop_slots statuses u :
  (replaceStatus_loop statuses u).1
  = (λ s, if sameWorkload s u then u else s) <$> statuses.
Proof.
  induction statuses as [|s rest IH]; simpl; [done|].
  destruct (replaceStatus_loop rest u) as [rest' updated]. simpl in IH.
  subst rest'. by destruct (sameWorkload s u).
Qed.

(** The flag the loop leaves: whether some slot matched. *)
Lemma replaceStatus_loop_updated statuses u :
  (replaceStatus_loop statuses u).2 = true
  ↔ ∃ s, s ∈ statuses ∧ WorkloadStatus.key s = WorkloadStatus.key u.
Proof.
  induction statuses as [|s rest IH]; simpl.
  - split; [done|]. intros (s & Hs & _). by apply elem_of_nil in Hs.
  - destruct (replaceStatus_loop rest u) as [rest' updated]. simpl in IH.
    destruct (sameWorkload s u) eqn:Hsame; simpl.
    + split; [|done]. intros _. exists s.
      split; [apply elem_of_cons; by left|by apply sameWorkload_key].
    + rewrite IH. apply sameWorkload_false_key in Hsame. split.
      * intros (s' & Hs' & Hk). exists s'.
        split; [apply elem_of_cons; by right|done].
      * intros (s' & Hs' & Hk). apply elem_of_cons in Hs' as [->|Hs'].
        -- done.
        -- by exists s'.
Qed.

(** Overwriting matching slots leaves the identifying tuples in place. *)
Lemma replaceStatus_loop_keys statuses u :
  WorkloadStatus.key <$> (replaceStatus_loop statuses u).1
  = WorkloadStatus.key <$> statuses.
Proof.
  rewrite replaceStatus_loop_slots, <- list_fmap_compose.
  apply list_fmap_ext. intros i s _. simpl.
  destruct (sameWorkload s u) eqn:Hsame; [|done].
  symmetry. by apply sameWorkload_key.
Qed.

(** Without a match the loop leaves the slice as it was. *)
Lemma replaceStatus_loop_no_match statuses u :
  (∀ s, s ∈ statuses → WorkloadStatus.key s ≠ WorkloadStatus.key u) →
  (replaceStatus_loop statuses u).1 = statuses.
Proof.
  intros Hno. rewrite replaceStatus_loop_slots.
  rewrite <- (list_fmap_id statuses) at 2.
  apply list_fmap_ext. intros i s Hs. simpl.
  rewrite (proj2 (sameWorkload_false_key s u)); [done|].
  apply Hno. by eapply list_elem_of_lookup_2.
Qed.

(** With unique tuples and a match at slot [i], only that slot changes. *)
Lemma replaceStatus_loop_in_place statuses u i old :
  uniqueKeys statuses →
  statuses !! i = Some old →
  WorkloadStatus.key old = WorkloadStatus.key u →
  (replaceStatus_loop statuses u).1 = <[i := u]> statuses.
Proof.
  intros Huniq Hi Hkey. rewrite replaceStatus_loop_slots.
  apply list_eq. intros j. rewrite list_lookup_fmap.
  destruct (decide (i = j)) as [<-|Hij].
  - rewrite list_lookup_insert_eq by by eapply lookup_lt_Some.
    rewrite Hi. simpl.
    by rewrite (proj2 (sameWorkload_key old u)).
  - rewrite list_lookup_insert_ne by done.
    destruct (statuses !! j) as [s|] eqn:Hj; simpl; [|done].
    rewrite (proj2 (sameWorkload_false_key s u)); [done|].
    intros Hs. apply Hij.
    eapply (NoDup_lookup _ _ _ (WorkloadStatus.key u) Huniq);
      rewrite list_lookup_fmap.
    + by rewrite Hi, <- Hkey.
    + by rewrite Hj, <- Hs.
Qed.

End StatusFacts.

(** C6: on a list with at most one entry per (kind, version, namespace,
    name), [replaceStatus] gives a list with at most one entry per tuple
    again; an entry with the tuple of the new one is overwritten in its
    slot, and without such an entry the new one is appended at the end. *)
Theorem replaceStatus_unique
    (statuses : list WorkloadStatus.t) (updatedStatus : WorkloadStatus.t) :
  uniqueKeys statuses →
  uniqueKeys (replaceStatus statuses updatedStatus)
  ∧ (∀ i old,
       statuses !! i = Some old →
       WorkloadStatus.key old = WorkloadStatus.key updatedStatus →
       replaceStatus statuses updatedStatus = <[i := updatedStatus]> statuses)
  ∧ ((∀ s, s ∈ statuses →
           WorkloadStatus.key s ≠ WorkloadStatus.key updatedStatus) →
     replaceStatus statuses updatedStatus = statuses ++ [updatedStatus]).
Proof.
  intros Huniq. unfold replaceStatus.
  pose proof (replaceStatus_loop_keys statuses updatedStatus) as Hkeys.
  pose proof (replaceStatus_loop_updated statuses updatedStatus) as Hupd.
  destruct (replaceStatus_loop statuses updatedStatus)
    as [statuses' updated] eqn:Hloop.
  simpl in Hkeys, Hupd. split; [|split].
  - unfold uniqueKeys in *. destruct updated.
    + by rewrite Hkeys.
    + rewrite fmap_app, Hkeys. simpl. apply NoDup_app.
      split; [done|]. split; [|apply NoDup_singleton].
      intros k Hk Hin. apply list_elem_of_singleton in Hin as ->.
      apply list_elem_of_fmap in Hk as (s & Hs & Hin).
      assert (false = true) as Habs; [|done].
      apply Hupd. by exists s.
  - intros i old Hi Hkey.
    pose proof (replaceStatus_loop_in_place _ _ _ _ Huniq Hi Hkey) as Hin.
    rewrite Hloop in Hin. simpl in Hin.
    destruct updated; [done|].
    assert (false = true) as Habs; [|done].
    apply Hupd. exists old.
    split; [by eapply list_elem_of_lookup_2|done].
  - intros Hno.
    pose proof (replaceStatus_loop_no_match _ _ Hno) as Hsame.
    rewrite Hloop in Hsame. simpl in Hsame. subst statuses'.
    destruct updated; [|done].
    destruct (proj1 Hupd eq_refl) as (s & Hs & Hk). by destruct (Hno s Hs).
Qed.

Lemma replaceStatus_unique_witness :
  uniqueKeys
    (replaceStatus
       [newStatus (Sample.deployment "web"); newStatus (Sample.deployment "api")]
       (WorkloadStatus.setConditions (newStatus (Sample.deployment "api"))
          [Sample.condition "WorkloadUpToDate" ConditionTrue (Some 3) "UpToDate"])).
Proof.
  refine (proj1 (replaceStatus_unique
    [newStatus (Sample.deployment "web"); newStatus (Sample.deployment "api")]
    (WorkloadStatus.setConditions (newStatus (Sample.deployment "api"))
       [Sample.condition "WorkloadUpToDate" ConditionTrue (Some 3) "UpToDate"])
    _)).
  unfold uniqueKeys. apply (bool_decide_unpack _). vm_compute. exact I.
Defined.

(** ** The reconcile loop *)

Section ReconcilerFacts.

Context {S : Type}.
Variable client : Client S.
Variable clock : nat → Z.
Variable WorkloadForKind : string → Workload.t + error.t.
Variable WorkloadListForKind : string → WorkloadList.t + error.t.
Variable LabelsSelector : WorkloadSelectorSpec.t → Selector + error.t.
Variable AnnotationPrefix : string.
Variable ConditionUpToDate : string.
Variable ConditionWorkloadUpToDate : string.
Variable ReasonNoWorkloadsFound : string.
Variable ReasonFinishedReconcile : string.
Variable ReasonUpToDate : string.

Abbreviation listWorkloads' :=
  (listWorkloads client WorkloadForKind WorkloadListForKind LabelsSelector).
Abbreviation markWorkloads' :=
  (markWorkloads (S := S) clock ConditionWorkloadUpToDate ReasonUpToDate).
Abbreviation updateWorkloadStatus' :=
  (updateWorkloadStatus client clock WorkloadForKind WorkloadListForKind
     LabelsSelector ConditionWorkloadUpToDate ReasonUpToDate).
Abbreviation doDelete' :=
  (doDelete client clock WorkloadForKind WorkloadListForKind LabelsSelector
     AnnotationPrefix ConditionWorkloadUpToDate ReasonUpToDate).
Abbreviation doCreateUpdate' :=
  (doCreateUpdate client clock WorkloadForKind WorkloadListForKind
     LabelsSelector AnnotationPrefix ConditionUpToDate
     ConditionWorkloadUpToDate ReasonNoWorkloadsFound ReasonFinishedReconcile
     ReasonUpToDate).
Abbreviation Reconcile' :=
  (Reconcile client clock WorkloadForKind WorkloadListForKind LabelsSelector
     AnnotationPrefix ConditionUpToDate ConditionWorkloadUpToDate
     ReasonNoWorkloadsFound ReasonFinishedReconcile ReasonUpToDate).
Abbreviation finalizerName' := (finalizerName AnnotationPrefix).

Lemma readStep_refl (w : World S) : readStep w w [].
Proof. unfold readStep. by rewrite app_nil_r. Qed.

Lemma readStep_trans (w1 w2 w3 : World S) (cs1 cs2 : list Call) :
  readStep w1 w2 cs1 → readStep w2 w3 cs2 → readStep w1 w3 (cs1 ++ cs2).
Proof.
  intros (Hs1 & Hd1 & Hc1) (Hs2 & Hd2 & Hc2). unfold readStep.
  rewrite Hs2, Hs1, Hd2, Hd1, Hc2, Hc1. by rewrite app_assoc.
Qed.

Lemma readStep_logCall (w : World S) (c : Call) :
  readStep w (logCall c w) [c].
Proof. done. Qed.

(** Stamping a condition touches neither the store nor the log. *)
Lemma r_replaceCondition_readStep conds newC (w : World S) :
  readStep w (r_replaceCondition clock conds newC w).2 [].
Proof.
  unfold r_replaceCondition. simpl.
  destruct (readsClock conds newC); simpl; unfold readStep; simpl;
    by rewrite app_nil_r.
Qed.

(** The loop over the matching workloads works on the copy in memory. *)
Lemma markWorkloads_frame matching resource (w : World S) :
  readStep w (markWorkloads' matching resource w).2 []
  ∧ sameButWorkloadStatus resource (markWorkloads' matching resource w).1.
Proof.
  revert resource w. induction matching as [|wl rest IH]; intros resource w.
  - simpl. split; [apply readStep_refl|done].
  - simpl. unfold bind.
    pose proof (r_replaceCondition_readStep
      (WorkloadStatus.Conditions (newStatus wl))
      {| Condition.Type_ := ConditionWorkloadUpToDate;
         Condition.Status := ConditionTrue;
         Condition.ObservedGeneration :=
           AuthProxyWorkload.GetGeneration resource;
         Condition.LastTransitionTime := None;
         Condition.Reason := ReasonUpToDate;
         Condition.Message := "No update needed for this workload" |} w)
      as Hstamp.
    destruct (r_replaceCondition _ _ _ w) as [conds w1]. simpl in Hstamp.
    match goal with
    | |- context [markWorkloads' rest ?r w1] =>
        destruct (IH r w1) as [Hstep Hsame]
    end.
    split.
    + apply (readStep_trans _ _ _ [] [] Hstamp Hstep).
    + destruct Hsame as (Hm & Hsp & Hc). by repeat split.
Qed.

(** Closes the case of a lookup that returns before any client call. *)
Ltac no_call :=
  exists [];
  split; [apply readStep_refl|];
  split; [done|];
  split; [simpl; lia|constructor].

(** Resolving the selector issues at most one call, a read. *)
Lemma listWorkloads_reads sel ns (w : World S) :
  ∃ reads,
    readStep w (listWorkloads' sel ns w).2 reads
    ∧ ticks (listWorkloads' sel ns w).2 = ticks w
    ∧ (length reads ≤ 1)%nat
    ∧ Forall (λ c, isLookupCall sel c = true) reads.
Proof.
  unfold listWorkloads, loadByName, loadByLabelSelector.
  case_bool_decide as Hname.
  - destruct (WorkloadForKind _) as [wl|err]; simpl.
    + unfold bind, r_GetObject. simpl.
      eexists [_]. split.
      * destruct (GetObject _ _ _ _) as [wl'|err]; simpl;
          [|destruct (error.IsNotFound err); simpl];
          apply readStep_logCall.
      * split.
        { destruct (GetObject _ _ _ _) as [wl'|err]; simpl;
            [|destruct (error.IsNotFound err); simpl]; done. }
        split; [simpl; lia|].
        constructor; [|constructor]. simpl.
        by apply bool_decide_eq_true_2.
    + no_call.
  - destruct (LabelsSelector sel) as [parsed|err]; simpl; [|no_call].
    destruct (WorkloadListForKind _) as [wl|err]; simpl; [|no_call].
    unfold bind, r_List. simpl.
    eexists [_]. split.
    + destruct (List _ _ _ _ _); simpl; apply readStep_logCall.
    + split; [by destruct (List _ _ _ _ _)|].
      split; [simpl; lia|].
      constructor; [|constructor]. simpl.
      by apply bool_decide_eq_true_2.
Qed.

Lemma lookupCall_not_write sel reads :
  Forall (λ c, isLookupCall sel c = true) reads → writes reads = [].
Proof.
  induction 1 as [|c reads Hc _ IH]; [done|].
  unfold writes in *. rewrite filter_cons, IH.
  destruct c; simpl in *; done.
Qed.

(** [updateWorkloadStatus]: reads only, and the copy in memory changes in
    [Status.WorkloadStatus] only; on an error it does not change. *)
Lemma updateWorkloadStatus_frame resource (w : World S) :
  ∃ reads,
    readStep w (updateWorkloadStatus' resource w).2 reads
    ∧ (length reads ≤ 1)%nat
    ∧ Forall (λ c, isLookupCall (AuthProxyWorkload.Spec_Workload resource) c
                   = true) reads
    ∧ sameButWorkloadStatus resource (updateWorkloadStatus' resource w).1.2
    ∧ (∀ err, (updateWorkloadStatus' resource w).1.1 = inr err →
              (updateWorkloadStatus' resource w).1.2 = resource).
Proof.
  unfold updateWorkloadStatus, bind.
  destruct (listWorkloads_reads (AuthProxyWorkload.Spec_Workload resource)
              (AuthProxyWorkload.GetNamespace resource) w)
    as (reads & Hstep & _ & Hlen & Hreads).
  exists reads.
  destruct (listWorkloads' _ _ w) as [[matching|err] w1]; simpl in *.
  - destruct (markWorkloads_frame matching resource w1) as [Hmark Hsame].
    destruct (markWorkloads' matching resource w1) as [resource' w2].
    simpl in *. split.
    + rewrite <- (app_nil_r reads). by eapply readStep_trans.
    + split; [done|]. split; [done|]. split; [done|]. by intros err.
  - split; [done|]. split; [done|]. split; [done|]. by split.
Qed.

(** C10: [updateWorkloadStatus] issues no write.  It leaves the store as it
    was; it issues at most one client call, a point get when the selector
    names its target and a list call otherwise; and the marking of the
    targets changes the copy of the resource in memory, in
    [Status.WorkloadStatus] only. *)
Theorem updateWorkloadStatus_reads_only
    (resource : AuthProxyWorkload.t) (w : World S) :
  store (updateWorkloadStatus' resource w).2 = store w
  ∧ ∃ reads,
      calls (updateWorkloadStatus' resource w).2 = calls w ++ reads
      ∧ (length reads ≤ 1)%nat
      ∧ Forall (λ c, isLookupCall (AuthProxyWorkload.Spec_Workload resource) c
                     = true) reads
      ∧ writes reads = []
      ∧ sameButWorkloadStatus resource (updateWorkloadStatus' resource w).1.2.
Proof.
  destruct (updateWorkloadStatus_frame resource w)
    as (reads & (Hstore & _ & Hcalls) & Hlen & Hreads & Hsame & _).
  split; [done|]. exists reads.
  split; [done|]. split; [done|]. split; [done|].
  split; [by eapply lookupCall_not_write|done].
Qed.

(** [loadByName] on a point lookup that answers not-found. *)
Lemma loadByName_not_found sel ns (w : World S) wl err :
  WorkloadForKind (WorkloadSelectorSpec.Kind sel) = inl wl →
  GetObject client (ns, WorkloadSelectorSpec.Name sel) wl (store w) = inr err →
  error.IsNotFound err = true →
  (loadByName client WorkloadForKind sel ns w).1 = inl [].
Proof.
  intros Hkind Hget Hnf. unfold loadByName. rewrite Hkind.
  unfold bind, r_GetObject. simpl. rewrite Hget. by rewrite Hnf.
Qed.

(** C8: a lookup for a selector with a name, whose point lookup answers
    not-found, gives the empty list of targets and no error; so does
    [updateWorkloadStatus], which leaves the resource as it was. *)
Theorem listWorkloads_not_found_is_empty
    (sel : WorkloadSelectorSpec.t) (ns : string) (w : World S)
    (wl : Workload.t) (err : error.t) :
  WorkloadSelectorSpec.Name sel ≠ "" →
  WorkloadForKind (WorkloadSelectorSpec.Kind sel) = inl wl →
  GetObject client
    (if bool_decide (WorkloadSelectorSpec.Namespace sel ≠ "")
     then WorkloadSelectorSpec.Namespace sel else ns,
     WorkloadSelectorSpec.Name sel) wl (store w) = inr err →
  error.IsNotFound err = true →
  (listWorkloads' sel ns w).1 = inl [].
Proof.
  intros Hname Hkind Hget Hnf. unfold listWorkloads.
  rewrite (bool_decide_eq_true_2 _ Hname).
  by eapply loadByName_not_found.
Qed.

(** The deletion cache answers what was set last for the key. *)
Lemma recentlyDeletedCache_get_set c k' b k :
  recentlyDeletedCache.get (recentlyDeletedCache.set c k' b) k
  = if bool_decide (k' = k) then b else recentlyDeletedCache.get c k.
Proof.
  unfold recentlyDeletedCache.get, recentlyDeletedCache.set. simpl.
  case_bool_decide as Hk.
  - subst. by rewrite lookup_insert_eq.
  - rewrite lookup_insert_ne by done.
    destruct (recentlyDeletedCache.values c); [done|].
    by rewrite lookup_empty.
Qed.

Lemma recentlyDeletedCache_get_foldl history c k :
  recentlyDeletedCache.get
    (foldl (λ c e, recentlyDeletedCache.set c e.1 e.2) c history) k
  = match lastRecorded history k with
    | Some b => b
    | None => recentlyDeletedCache.get c k
    end.
Proof.
  revert c. induction history as [|e rest IH]; intros c; simpl; [done|].
  rewrite IH. destruct (lastRecorded rest k); [done|].
  rewrite recentlyDeletedCache_get_set. by case_bool_decide.
Qed.

Lemma recentlyDeletedCache_get_recorded history k :
  recentlyDeletedCache.get (recorded history) k
  = match lastRecorded history k with
    | Some b => b
    | None => false
    end.
Proof. unfold recorded. by rewrite recentlyDeletedCache_get_foldl. Qed.

(** C5: when the fetch of the resource answers not-found, [Reconcile]
    returns no error and no requeue if the deletion cache recorded the key
    last as deleted, and returns the fetch error with the requeue after the
    delay otherwise; it issues no other call. *)
Theorem Reconcile_not_found
    (req : NamespacedName) (w : World S)
    (history : list (NamespacedName * bool)) (err : error.t) :
  recentlyDeleted w = recorded history →
  Get client req (store w) = inr err →
  error.IsNotFound err = true →
  (Reconcile' req w).1
  = match lastRecorded history req with
    | Some true => (noRequeue, None)
    | _ => (requeueWithDelay, Some err)
    end
  ∧ (Reconcile' req w).2 = logCall (CallGet req) w.
Proof.
  intros Hcache Hget _. unfold Reconcile, bind, r_Get, recentlyDeleted_get.
  simpl. rewrite Hget. simpl. rewrite Hcache.
  rewrite recentlyDeletedCache_get_recorded.
  by destruct (lastRecorded history req) as [[]|].
Qed.

(** *** Finalizers *)

Lemma containsString_removeString fs f :
  containsString (removeString fs f) f = false.
Proof.
  induction fs as [|e rest IH]; simpl; [done|].
  case_bool_decide as He; [done|]. simpl.
  by rewrite bool_decide_eq_false_2.
Qed.

Lemma ContainsFinalizer_RemoveFinalizer o f :
  ContainsFinalizer (RemoveFinalizer o f) f = false.
Proof. apply containsString_removeString. Qed.

Lemma ContainsFinalizer_same_meta o o' f :
  AuthProxyWorkload.Meta o' = AuthProxyWorkload.Meta o →
  ContainsFinalizer o' f = ContainsFinalizer o f.
Proof.
  intros Hmeta. unfold ContainsFinalizer, AuthProxyWorkload.GetFinalizers.
  by rewrite Hmeta.
Qed.

(** *** Calls of the two paths *)

Lemma writes_app (cs1 cs2 : list Call) :
  writes (cs1 ++ cs2) = writes cs1 ++ writes cs2.
Proof. apply filter_app. Qed.

Lemma writes_cons_read (c : Call) (cs : list Call) :
  isWrite c = false → writes (c :: cs) = writes cs.
Proof.
  intros Hc. unfold writes. rewrite filter_cons.
  destruct c; simpl in *; done.
Qed.

(** [doDelete], step by step: the lookup, then the update that removes the
    finalizer when the resource has it. *)
Lemma doDelete_steps resource (w : World S) :
  ∃ reads,
    readStep w (updateWorkloadStatus' resource w).2 reads
    ∧ (length reads ≤ 1)%nat
    ∧ writes reads = []
    ∧ match (updateWorkloadStatus' resource w).1.1 with
      | inr err =>
          doDelete' resource w
          = ((requeueNow, Some err), (updateWorkloadStatus' resource w).2)
      | inl _ =>
          if ContainsFinalizer resource finalizerName' then
            let w1 := (updateWorkloadStatus' resource w).2 in
            let obj :=
              RemoveFinalizer (updateWorkloadStatus' resource w).1.2
                finalizerName' in
            doDelete' resource w
            = ((noRequeue, (Update client obj (store w)).1),
               mkWorld (Update client obj (store w)).2 (recentlyDeleted w1)
                 (ticks w1) (calls w ++ reads ++ [CallUpdate obj]))
          else
            doDelete' resource w
            = ((noRequeue, None), (updateWorkloadStatus' resource w).2)
      end.
Proof.
  destruct (updateWorkloadStatus_frame resource w)
    as (reads & Hstep & Hlen & Hreads & Hsame & _).
  exists reads. split; [done|]. split; [done|].
  split; [by eapply lookupCall_not_write|].
  unfold doDelete, bind.
  destruct (updateWorkloadStatus' resource w) as [[res resource'] w1].
  simpl in *. destruct res as [matching|err]; [|done].
  destruct Hsame as (Hmeta & _).
  rewrite (ContainsFinalizer_same_meta _ _ _ Hmeta).
  destruct (ContainsFinalizer resource finalizerName'); [|done].
  destruct Hstep as (Hstore & _ & Hcalls).
  unfold r_Update. rewrite Hstore, Hcalls, <- app_assoc.
  by destruct (Update client _ (store w)) as [[e|] s'].
Qed.

Lemma doDelete_writes resource (w : World S) :
  ∃ cs,
    calls (doDelete' resource w).2 = calls w ++ cs
    ∧ (length (writes cs) ≤ 1)%nat
    ∧ Forall (isDeletePathCall finalizerName' resource) cs.
Proof.
  destruct (doDelete_steps resource w)
    as (reads & (_ & _ & Hcalls) & _ & Hwrites & Hdelete).
  destruct (updateWorkloadStatus_frame resource w)
    as (_ & _ & _ & _ & (_ & _ & Hconds) & _).
  assert (Forall (isDeletePathCall finalizerName' resource) reads) as Hreads.
  { clear -Hwrites. induction reads as [|c reads IH]; [done|].
    unfold writes in Hwrites. rewrite filter_cons in Hwrites.
    destruct c; simpl in Hwrites; try done;
      by constructor; [|apply IH]. }
  destruct ((updateWorkloadStatus' resource w).1.1) as [matching|err].
  - destruct (ContainsFinalizer resource finalizerName').
    + rewrite Hdelete. simpl. eexists. split; [done|].
      rewrite writes_app, Hwrites. split; [simpl; lia|].
      apply Forall_app. split; [done|].
      constructor; [|done]. simpl.
      split; [apply ContainsFinalizer_RemoveFinalizer|done].
    + rewrite Hdelete. simpl. exists reads.
      split; [done|]. rewrite Hwrites. split; [simpl; lia|done].
  - rewrite Hdelete. simpl. exists reads.
    split; [done|]. rewrite Hwrites. split; [simpl; lia|done].
Qed.

Lemma reconcileResult_writes resource orig reason message (w : World S) :
  ∃ cs,
    calls (reconcileResult client clock ConditionUpToDate resource orig
             reason message w).2 = calls w ++ cs
    ∧ (length (writes cs) ≤ 1)%nat.
Proof.
  unfold reconcileResult, bind.
  match goal with
  | |- context [r_replaceCondition clock ?cs ?c w] =>
      pose proof (r_replaceCondition_readStep cs c w) as (_ & _ & Hcalls);
      destruct (r_replaceCondition clock cs c w) as [conds w1]
  end.
  simpl in Hcalls. rewrite app_nil_r in Hcalls. rewrite <- Hcalls.
  unfold patchAuthProxyWorkloadStatus, bind, r_StatusPatch, r_Get.
  destruct (StatusPatch client _ _ _) as [[e|] s']; simpl.
  - eexists [_]. split; [done|]. simpl. lia.
  - destruct (Get client _ _); simpl; rewrite <- app_assoc;
      (eexists; split; [done|]; simpl; lia).
Qed.

Lemma doCreateUpdate_writes resource (w : World S) :
  ∃ cs,
    calls (doCreateUpdate' resource w).2 = calls w ++ cs
    ∧ (length (writes cs) ≤ 1)%nat.
Proof.
  unfold doCreateUpdate.
  destruct (ContainsFinalizer resource finalizerName'); simpl.
  - destruct (updateWorkloadStatus_frame resource w)
      as (reads & (_ & _ & Hcalls) & _ & Hreads & _).
    apply lookupCall_not_write in Hreads.
    unfold bind.
    destruct (updateWorkloadStatus' resource w) as [[res resource'] w1].
    simpl in Hcalls. destruct res as [matching|err]; simpl.
    + match goal with
      | |- context [(if ?b then ?m1 else ?m2) w1] =>
          assert (∃ cs, calls ((if b then m1 else m2) w1).2 = calls w1 ++ cs
                        ∧ (length (writes cs) ≤ 1)%nat) as (cs & Hcs & Hlen)
            by (destruct b; apply reconcileResult_writes)
      end.
      exists (reads ++ cs). rewrite Hcs, Hcalls, <- app_assoc.
      split; [done|]. by rewrite writes_app, Hreads.
    + exists reads. split; [done|]. rewrite Hreads. simpl. lia.
  - unfold applyFinalizer, bind, r_Update.
    destruct (Update client _ _) as [[e|] s']; simpl;
      (eexists [_]; split; [done|]; simpl; lia).
Qed.

(** C2: one invocation of [Reconcile] issues at most one mutating call, an
    update or a status patch, whatever the client answers. *)
Theorem Reconcile_at_most_one_write (req : NamespacedName) (w : World S) :
  calls (Reconcile' req w).2 = calls w ++ newCalls (Reconcile' req) w
  ∧ (length (writes (newCalls (Reconcile' req) w)) ≤ 1)%nat.
Proof.
  assert (∃ cs, calls (Reconcile' req w).2 = calls w ++ cs
                ∧ (length (writes cs) ≤ 1)%nat) as (cs & Hcs & Hlen).
  { unfold Reconcile, bind, r_Get, recentlyDeleted_get, recentlyDeleted_set.
    simpl. destruct (Get client req (store w)) as [resource|err]; simpl.
    - destruct (Time_IsZero _); simpl.
      + match goal with
        | |- context [doCreateUpdate' resource ?w1] =>
            destruct (doCreateUpdate_writes resource w1) as (cs & Hcs & Hlen)
        end.
        exists (CallGet req :: cs). simpl in Hcs.
        rewrite Hcs, <- app_assoc. split; [done|].
        by rewrite writes_cons_read.
      + match goal with
        | |- context [doDelete' resource ?w1] =>
            destruct (doDelete_writes resource w1) as (cs & Hcs & Hlen & _)
        end.
        exists (CallGet req :: cs). simpl in Hcs.
        rewrite Hcs, <- app_assoc. split; [done|].
        by rewrite writes_cons_read.
    - exists [CallGet req].
      destruct (recentlyDeletedCache.get _ _); simpl; (split; [done|lia]). }
  unfold newCalls. rewrite Hcs, drop_app_length. done.
Qed.

(** A fetched resource with a deletion timestamp goes to [doDelete]. *)
Lemma Reconcile_deleted req (w : World S) resource :
  Get client req (store w) = inl resource →
  Time_IsZero
    (ObjectMeta.DeletionTimestamp (AuthProxyWorkload.Meta resource)) = false →
  Reconcile' req w = doDelete' resource (afterFetch req true w).
Proof.
  intros Hget Hdel. unfold Reconcile, bind, r_Get, afterFetch. simpl.
  by rewrite Hget, Hdel.
Qed.

(** C1: when the fetched resource has a deletion timestamp, [Reconcile] is
    [doDelete] on it.  After the fetch it issues no status patch, and an
    object it sends with an update does not hold the finalizer and carries
    the conditions of the fetched resource: the finalizer is not added and
    no resource-level condition is set. *)
Theorem Reconcile_deletion_precedence
    (req : NamespacedName) (w : World S) (resource : AuthProxyWorkload.t) :
  Get client req (store w) = inl resource →
  Time_IsZero
    (ObjectMeta.DeletionTimestamp (AuthProxyWorkload.Meta resource)) = false →
  Reconcile' req w = doDelete' resource (afterFetch req true w)
  ∧ recentlyDeletedCache.get (recentlyDeleted (Reconcile' req w).2) req = true
  ∧ ∃ cs,
      calls (Reconcile' req w).2 = calls w ++ CallGet req :: cs
      ∧ Forall (isDeletePathCall finalizerName' resource) cs.
Proof.
  intros Hget Hdel. rewrite (Reconcile_deleted _ _ _ Hget Hdel).
  split; [done|].
  destruct (doDelete_writes resource (afterFetch req true w))
    as (cs & Hcs & _ & Hpath).
  split.
  - destruct (doDelete_steps resource (afterFetch req true w))
      as (reads & (_ & Hcache & _) & _ & _ & Hdelete).
    assert (recentlyDeletedCache.get
              (recentlyDeleted
                 (updateWorkloadStatus' resource (afterFetch req true w)).2)
              req = true) as Hset.
    { rewrite Hcache. unfold afterFetch. simpl.
      rewrite recentlyDeletedCache_get_set.
      by rewrite bool_decide_eq_true_2. }
    destruct ((updateWorkloadStatus' resource (afterFetch req true w)).1.1).
    + destruct (ContainsFinalizer resource finalizerName');
        by rewrite Hdelete.
    + by rewrite Hdelete.
  - exists cs. split; [|done].
    rewrite Hcs. unfold afterFetch. simpl. by rewrite <- app_assoc.
Qed.

(** C4 (amended): for a fetched resource with a deletion timestamp and the
    finalizer, [Reconcile] looks the targets up with at most one read.  If
    that fails it returns the error with an immediate requeue and issues no
    write.  Otherwise it sends one update, of the resource with the
    recomputed target status and without the finalizer, and returns no
    requeue together with what the update answered: no error when the
    update succeeded. *)
Theorem Reconcile_delete_removes_finalizer
    (req : NamespacedName) (w : World S) (resource : AuthProxyWorkload.t) :
  Get client req (store w) = inl resource →
  Time_IsZero
    (ObjectMeta.DeletionTimestamp (AuthProxyWorkload.Meta resource)) = false →
  ContainsFinalizer resource finalizerName' = true →
  ∃ reads,
    (length reads ≤ 1)%nat
    ∧ writes reads = []
    ∧ match (updateWorkloadStatus' resource (afterFetch req true w)).1 with
      | (inr err, _) =>
          (Reconcile' req w).1 = (requeueNow, Some err)
          ∧ calls (Reconcile' req w).2 = calls w ++ CallGet req :: reads
          ∧ store (Reconcile' req w).2 = store w
      | (inl _, resource') =>
          let obj := RemoveFinalizer resource' finalizerName' in
          calls (Reconcile' req w).2
          = calls w ++ CallGet req :: reads ++ [CallUpdate obj]
          ∧ ContainsFinalizer obj finalizerName' = false
          ∧ (Reconcile' req w).1
            = (noRequeue, (Update client obj (store w)).1)
          ∧ store (Reconcile' req w).2 = (Update client obj (store w)).2
      end.
Proof.
  intros Hget Hdel Hfin. rewrite (Reconcile_deleted _ _ _ Hget Hdel).
  destruct (doDelete_steps resource (afterFetch req true w))
    as (reads & (Hstore & _ & Hcalls) & Hlen & Hwrites & Hdelete).
  exists reads. split; [done|]. split; [done|].
  rewrite Hfin in Hdelete.
  destruct (updateWorkloadStatus' resource (afterFetch req true w))
    as [[res resource'] w1].
  simpl in *. destruct res as [matching|err]; rewrite Hdelete; simpl.
  - split; [by rewrite <- app_assoc|].
    split; [apply ContainsFinalizer_RemoveFinalizer|done].
  - split; [done|]. split; [by rewrite Hcalls, <- app_assoc|done].
Qed.

End ReconcilerFacts.

(** ** The reconciler on the sample cluster *)

Lemma Reconcile_deletion_precedence_witness :
  recentlyDeletedCache.get
    (recentlyDeleted (Sample.Reconcile Sample.req Sample.deletedWorld).2)
    Sample.req = true.
Proof.
  refine (proj1 (proj2 (Reconcile_deletion_precedence
    Sample.client Sample.clock Sample.WorkloadForKind
    Sample.WorkloadListForKind Sample.LabelsSelector Sample.AnnotationPrefix
    "UpToDate" "WorkloadUpToDate" "NoWorkloadsFound" "FinishedReconcile"
    "UpToDate" Sample.req Sample.deletedWorld Sample.deletedResource _ _)));
    reflexivity.
Defined.

(** C4, as stated, fails: the resource is marked deleted and holds the
    finalizer, but the point get of its target answers an error that is not
    not-found; [Reconcile] returns that error with an immediate requeue,
    sends no update and the finalizer stays. *)
Lemma Reconcile_delete_lookup_error :
  Get Sample.client Sample.req (store Sample.outageWorld)
  = inl Sample.deletedResource
  ∧ Time_IsZero
      (ObjectMeta.DeletionTimestamp
         (AuthProxyWorkload.Meta Sample.deletedResource)) = false
  ∧ ContainsFinalizer Sample.deletedResource Sample.finalizer = true
  ∧ (Sample.Reconcile Sample.req Sample.outageWorld).1
    = (requeueNow,
       Some (Errorf
               "unable to load resource by name default/web:  unavailable"))
  ∧ (Sample.Reconcile Sample.req Sample.outageWorld).1 ≠ (noRequeue, None)
  ∧ writes (calls (Sample.Reconcile Sample.req Sample.outageWorld).2) = []
  ∧ store (Sample.Reconcile Sample.req Sample.outageWorld).2
    = store Sample.outageWorld.
Proof.
  assert ((Sample.Reconcile Sample.req Sample.outageWorld).1
          = (requeueNow,
             Some (Errorf
                     "unable to load resource by name default/web:  unavailable")))
    as Hout by (vm_compute; reflexivity).
  split; [reflexivity|]. split; [reflexivity|].
  split; [vm_compute; reflexivity|]. split; [exact Hout|].
  split; [rewrite Hout; discriminate|].
  split; vm_compute; reflexivity.
Qed.

Lemma Reconcile_delete_removes_finalizer_witness :
  (Sample.Reconcile Sample.req Sample.deletedWorld).1 = (noRequeue, None)
  ∧ writes (calls (Sample.Reconcile Sample.req Sample.deletedWorld).2)
    = [CallUpdate
         (RemoveFinalizer
            (AuthProxyWorkload.setWorkloadStatus Sample.deletedResource
               [WorkloadStatus.setConditions
                  (newStatus (Sample.deployment "web"))
                  [{| Condition.Type_ := "WorkloadUpToDate";
                      Condition.Status := ConditionTrue;
                      Condition.ObservedGeneration := 1;
                      Condition.LastTransitionTime := Some 1000;
                      Condition.Reason := "UpToDate";
                      Condition.Message :=
                        "No update needed for this workload" |}]])
            Sample.finalizer)].
Proof.
  destruct (Reconcile_delete_removes_finalizer
    Sample.client Sample.clock Sample.WorkloadForKind
    Sample.WorkloadListForKind Sample.LabelsSelector Sample.AnnotationPrefix
    "UpToDate" "WorkloadUpToDate" "NoWorkloadsFound" "FinishedReconcile"
    "UpToDate" Sample.req Sample.deletedWorld Sample.deletedResource
    eq_refl eq_refl eq_refl) as (reads & _ & Hreads & Hrun).
  vm_compute in Hrun. destruct Hrun as (Hcalls & _ & Hout & _).
  split; [exact Hout|].
  change (Sample.Reconcile Sample.req Sample.deletedWorld)
    with (Reconcile Sample.client Sample.clock Sample.WorkloadForKind
            Sample.WorkloadListForKind Sample.LabelsSelector
            Sample.AnnotationPrefix "UpToDate" "WorkloadUpToDate"
            "NoWorkloadsFound" "FinishedReconcile" "UpToDate" Sample.req
            Sample.deletedWorld).
  vm_compute. reflexivity.
Defined.

Lemma Reconcile_not_found_witness :
  (Sample.Reconcile Sample.req
     (Sample.emptyWorld (recorded [(Sample.req, false); (Sample.req, true)]))).1
  = (noRequeue, None).
Proof.
  refine (proj1 (Reconcile_not_found
    Sample.client Sample.clock Sample.WorkloadForKind
    Sample.WorkloadListForKind Sample.LabelsSelector Sample.AnnotationPrefix
    "UpToDate" "WorkloadUpToDate" "NoWorkloadsFound" "FinishedReconcile"
    "UpToDate" Sample.req
    (Sample.emptyWorld (recorded [(Sample.req, false); (Sample.req, true)]))
    [(Sample.req, false); (Sample.req, true)] Sample.notFound _ _ _));
    reflexivity.
Defined.

Lemma listWorkloads_not_found_is_empty_witness :
  (listWorkloads Sample.client Sample.WorkloadForKind
     Sample.WorkloadListForKind Sample.LabelsSelector
     (Sample.selectorByName "Deployment" "web") "default"
     (Sample.emptyWorld recentlyDeletedCache.empty)).1 = inl [].
Proof.
  refine (listWorkloads_not_found_is_empty
    Sample.client Sample.WorkloadForKind Sample.WorkloadListForKind
    Sample.LabelsSelector (Sample.selectorByName "Deployment" "web") "default"
    (Sample.emptyWorld recentlyDeletedCache.empty)
    (Sample.emptyObject "Deployment" "apps/v1") Sample.notFound _ _ _ _);
    [discriminate|reflexivity..].
Defined.

(** *** The scenarios of the specification, evaluated *)

(** A new resource gets the finalizer with one update and is requeued at
    once; its status is not touched. *)
Example scenario_new_resource :
  let w := Sample.world
             (Sample.resource None [] (Sample.selectorByName "Deployment" "web"))
             [Sample.deployment "web"] recentlyDeletedCache.empty in
  (Sample.Reconcile Sample.req w).1 = (requeueNow, None)
  ∧ writes (calls (Sample.Reconcile Sample.req w).2)
    = [CallUpdate
         (Sample.resource None [Sample.finalizer]
            (Sample.selectorByName "Deployment" "web"))].
Proof. split; vm_compute; reflexivity. Qed.

(** No target: the resource is marked up to date for lack of workloads. *)
Example scenario_no_targets :
  let w := Sample.world
             (Sample.resource None [Sample.finalizer]
                (Sample.selectorByName "Deployment" "web"))
             [] recentlyDeletedCache.empty in
  (Sample.Reconcile Sample.req w).1 = (noRequeue, None)
  ∧ (AuthProxyWorkload.Status <$> Sample.storedAfter w)
    = Some {| AuthProxyWorkloadStatus.Conditions :=
                [{| Condition.Type_ := "UpToDate";
                    Condition.Status := ConditionTrue;
                    Condition.ObservedGeneration := 1;
                    Condition.LastTransitionTime := Some 1000;
                    Condition.Reason := "NoWorkloadsFound";
                    Condition.Message := "No workload updates needed" |}];
              AuthProxyWorkloadStatus.WorkloadStatus := [] |}.
Proof. split; vm_compute; reflexivity. Qed.

(** Two targets: both get a status entry, the message counts them. *)
Example scenario_two_targets :
  let w := Sample.world
             (Sample.resource None [Sample.finalizer]
                (Sample.selectorByKind "Deployment"))
             [Sample.deployment "web"; Sample.deployment "api"]
             recentlyDeletedCache.empty in
  (Sample.Reconcile Sample.req w).1 = (noRequeue, None)
  ∧ (Sample.storedAfter w
       ≫= λ r, findCondition
                 (AuthProxyWorkloadStatus.Conditions
                    (AuthProxyWorkload.Status r)) "UpToDate")
    = Some {| Condition.Type_ := "UpToDate";
              Condition.Status := ConditionTrue;
              Condition.ObservedGeneration := 1;
              Condition.LastTransitionTime := Some 1002;
              Condition.Reason := "FinishedReconcile";
              Condition.Message :=
                "Reconciled 2 matching workloads complete" |}
  ∧ ((λ r, WorkloadStatus.Name
             <$> AuthProxyWorkloadStatus.WorkloadStatus
                   (AuthProxyWorkload.Status r)) <$> Sample.storedAfter w)
    = Some ["web"; "api"]
  ∧ length (writes (calls (Sample.Reconcile Sample.req w).2)) = 1%nat.
Proof. repeat split; vm_compute; reflexivity. Qed.

(** A failing update on the delete path: the error is returned, without a
    requeue. *)
Example scenario_delete_conflict :
  let w := mkWorld
             (Sample.mkStore [(Sample.req, Sample.deletedResource)]
                [Sample.deployment "web"] false true)
             recentlyDeletedCache.empty 0%nat [] in
  (Sample.Reconcile Sample.req w).1 = (noRequeue, Some Sample.conflict)
  ∧ length (writes (calls (Sample.Reconcile Sample.req w).2)) = 1%nat.
Proof. split; vm_compute; reflexivity. Qed.

(** * Further properties *)

(** ** Conditions *)

(** X1: [findCondition] answers the first condition of the type asked for,
    and nil exactly when no condition of the list has that type. *)
Theorem findCondition_first (conds : list Condition.t) (ty : string) :
  match findCondition conds ty with
  | Some c =>
      ∃ i, conds !! i = Some c
           ∧ Condition.Type_ c = ty
           ∧ ∀ j c', (j < i)%nat → conds !! j = Some c' →
                     Condition.Type_ c' ≠ ty
  | None => ∀ c, c ∈ conds → Condition.Type_ c ≠ ty
  end.
Proof.
  induction conds as [|c rest IH]; simpl.
  - intros c Hc. by apply elem_of_nil in Hc.
  - case_bool_decide as Hc.
    + exists 0%nat. split; [done|]. split; [done|]. intros j c' Hj. lia.
    + destruct (findCondition rest ty) as [found|].
      * destruct IH as (i & Hi & Hty & Hfirst).
        exists (Datatypes.S i). split; [done|]. split; [done|].
        intros [|j] c' Hj Hc'; simpl in Hc'.
        -- by injection Hc' as <-.
        -- apply (Hfirst j); [lia|done].
      * intros c' Hc'. apply elem_of_cons in Hc' as [->|Hc']; [done|].
        by apply IH.
Qed.

(** X2: [replaceCondition] overwrites the timestamp of the condition it is
    given: the list it returns does not depend on the [LastTransitionTime]
    the caller put into the new condition. *)
Theorem replaceCondition_ignores_given_time
    (now : Z) (conds : list Condition.t) (newC : Condition.t) (ts : Time) :
  replaceCondition now conds (Condition.setLastTransitionTime newC ts)
  = replaceCondition now conds newC.
Proof.
  induction conds as [|c rest IH]; simpl; [done|].
  destruct (bool_decide (Condition.Type_ c ≠ Condition.Type_ newC)).
  - by rewrite IH.
  - done.
Qed.

Lemma replaceCondition_then_find_aux
    (now : Z) (conds : list Condition.t) (newC : Condition.t) :
  ∃ stored,
    findCondition (replaceCondition now conds newC) (Condition.Type_ newC)
    = Some stored
    ∧ Condition.Status stored = Condition.Status newC
    ∧ Condition.ObservedGeneration stored = Condition.ObservedGeneration newC
    ∧ Condition.Reason stored = Condition.Reason newC
    ∧ Condition.Message stored = Condition.Message newC
    ∧ Time_IsZero (Condition.LastTransitionTime stored) = false.
Proof.
  eexists. rewrite findCondition_replaceCondition.
  split; [reflexivity|]. simpl. repeat (split; [reflexivity|]).
  destruct (findCondition conds (Condition.Type_ newC));
    [apply transitionTime_not_zero|done].
Qed.

(** X3: after [replaceCondition] the condition found for the type of the
    new condition carries the status, observed generation, reason and
    message of the new condition, and its timestamp is set. *)
Theorem replaceCondition_then_find
    (now : Z) (conds : list Condition.t) (newC : Condition.t) :
  ∃ stored,
    findCondition (replaceCondition now conds newC) (Condition.Type_ newC)
    = Some stored
    ∧ Condition.Type_ stored = Condition.Type_ newC
    ∧ Condition.Status stored = Condition.Status newC
    ∧ Condition.ObservedGeneration stored = Condition.ObservedGeneration newC
    ∧ Condition.Reason stored = Condition.Reason newC
    ∧ Condition.Message stored = Condition.Message newC
    ∧ Time_IsZero (Condition.LastTransitionTime stored) = false.
Proof.
  eexists. rewrite findCondition_replaceCondition.
  split; [reflexivity|]. simpl. repeat (split; [reflexivity|]).
  destruct (findCondition conds (Condition.Type_ newC));
    [apply transitionTime_not_zero|done].
Qed.

(** ** Workload statuses *)

Lemma replaceStatus_slots statuses u :
  replaceStatus statuses u
  = ((λ s, if sameWorkload s u then u else s) <$> statuses)
    ++ (if (replaceStatus_loop statuses u).2 then [] else [u]).
Proof.
  unfold replaceStatus.
  pose proof (replaceStatus_loop_slots statuses u) as Hslots.
  destruct (replaceStatus_loop statuses u) as [statuses' updated].
  simpl in *. subst. destruct updated; [by rewrite app_nil_r|done].
Qed.

Lemma replaceStatus_loop_updated_false statuses u :
  (replaceStatus_loop statuses u).2 = false
  ↔ ∀ s, s ∈ statuses → WorkloadStatus.key s ≠ WorkloadStatus.key u.
Proof.
  pose proof (replaceStatus_loop_updated statuses u) as Hupd.
  destruct (replaceStatus_loop statuses u).2; split.
  - done.
  - intros Hno. destruct (proj1 Hupd eq_refl) as (s & Hs & Hk).
    by destruct (Hno s Hs).
  - intros _ s Hs Hk. assert (false = true) as Habs; [|done].
    apply Hupd. by exists s.
  - done.
Qed.

Lemma replaceStatus_matches
    (statuses : list WorkloadStatus.t) (updatedStatus : WorkloadStatus.t) :
  updatedStatus ∈ replaceStatus statuses updatedStatus
  ∧ ∀ e, e ∈ replaceStatus statuses updatedStatus →
         WorkloadStatus.key e = WorkloadStatus.key updatedStatus →
         e = updatedStatus.
Proof.
  rewrite replaceStatus_slots. split.
  - destruct (replaceStatus_loop statuses updatedStatus).2 eqn:Hupd.
    + apply replaceStatus_loop_updated in Hupd as (s & Hs & Hk).
      apply elem_of_app. left. apply list_elem_of_fmap. exists s.
      split; [|done]. by rewrite (proj2 (sameWorkload_key _ _) Hk).
    + apply elem_of_app. right. by apply list_elem_of_singleton.
  - intros e He Hk. apply elem_of_app in He as [He|He].
    + apply list_elem_of_fmap in He as (s & -> & Hs).
      destruct (sameWorkload s updatedStatus) eqn:Hsame; [done|].
      by apply sameWorkload_false_key in Hsame.
    + destruct (replaceStatus_loop statuses updatedStatus).2.
      * by apply elem_of_nil in He.
      * by apply list_elem_of_singleton in He.
Qed.

(** X4: for every list, also one with repeated tuples, the list
    [replaceStatus] returns holds the new entry, and every entry of it with
    the tuple of the new entry is the new entry: all matching slots are
    overwritten, not only the first. *)
Theorem replaceStatus_overwrites_every_match
    (statuses : list WorkloadStatus.t) (updatedStatus : WorkloadStatus.t) :
  updatedStatus ∈ replaceStatus statuses updatedStatus
  ∧ ∀ e, e ∈ replaceStatus statuses updatedStatus →
         WorkloadStatus.key e = WorkloadStatus.key updatedStatus →
         e = updatedStatus.
Proof. apply replaceStatus_matches. Qed.

(** X5: applying [replaceStatus] a second time with the same entry changes
    nothing. *)
Theorem replaceStatus_idempotent
    (statuses : list WorkloadStatus.t) (updatedStatus : WorkloadStatus.t) :
  replaceStatus (replaceStatus statuses updatedStatus) updatedStatus
  = replaceStatus statuses updatedStatus.
Proof.
  pose proof (replaceStatus_matches statuses updatedStatus)
    as [Hin Hall].
  rewrite (replaceStatus_slots (replaceStatus statuses updatedStatus)).
  rewrite (proj2 (replaceStatus_loop_updated _ _)) by by eexists.
  rewrite app_nil_r. rewrite <- (list_fmap_id (replaceStatus _ _)) at 2.
  apply list_fmap_ext. intros i s Hs. simpl.
  destruct (sameWorkload s updatedStatus) eqn:Hsame; [|done].
  symmetry. apply Hall; [by eapply list_elem_of_lookup_2|].
  by apply sameWorkload_key.
Qed.

Lemma replaceStatus_key_list statuses u :
  WorkloadStatus.key <$> replaceStatus statuses u
  = (WorkloadStatus.key <$> statuses)
    ++ (if bool_decide (WorkloadStatus.key u ∈ WorkloadStatus.key <$> statuses)
        then [] else [WorkloadStatus.key u]).
Proof.
  rewrite replaceStatus_slots, fmap_app.
  rewrite <- replaceStatus_loop_slots, replaceStatus_loop_keys. f_equal.
  destruct (replaceStatus_loop statuses u).2 eqn:Hupd.
  - apply replaceStatus_loop_updated in Hupd as (s & Hs & Hk).
    rewrite bool_decide_eq_true_2; [done|].
    apply list_elem_of_fmap. by exists s.
  - rewrite bool_decide_eq_false_2; [done|].
    intros Hin. apply list_elem_of_fmap in Hin as (s & Hk & Hs).
    by apply (proj1 (replaceStatus_loop_updated_false _ _) Hupd s Hs).
Qed.

(** X6: [replaceStatus] keeps the identifying tuples of the list in their
    order, and adds the tuple of the new entry at the end when the list did
    not have it: no entry is dropped or moved, the length grows by at most
    one. *)
Theorem replaceStatus_keeps_keys
    (statuses : list WorkloadStatus.t) (updatedStatus : WorkloadStatus.t) :
  WorkloadStatus.key <$> replaceStatus statuses updatedStatus
  = (WorkloadStatus.key <$> statuses)
    ++ (if bool_decide
             (WorkloadStatus.key updatedStatus
              ∈ WorkloadStatus.key <$> statuses)
        then [] else [WorkloadStatus.key updatedStatus]).
Proof. apply replaceStatus_key_list. Qed.

(** ** The deletion cache *)

(** X7: after any sequence of [set] calls on a fresh cache, [get] answers
    for a key the value of the last [set] for that key, and false for a key
    that was never set. *)
Theorem recentlyDeletedCache_last_set_wins
    (history : list (NamespacedName * bool)) (k : NamespacedName) :
  recentlyDeletedCache.get (recorded history) k
  = match lastRecorded history k with
    | Some deleted => deleted
    | None => false
    end.
Proof.
  unfold recorded.
  assert (∀ c,
    recentlyDeletedCache.get
      (foldl (λ c e, recentlyDeletedCache.set c e.1 e.2) c history) k
    = match lastRecorded history k with
      | Some b => b
      | None => recentlyDeletedCache.get c k
      end) as Hfold.
  { induction history as [|e rest IH]; intros c; simpl; [done|].
    rewrite IH. destruct (lastRecorded rest k); [done|].
    unfold recentlyDeletedCache.get, recentlyDeletedCache.set. simpl.
    case_bool_decide as Hk.
    - subst. by rewrite lookup_insert_eq.
    - rewrite lookup_insert_ne by done.
      destruct (recentlyDeletedCache.values c); [done|].
      by rewrite lookup_empty. }
  by rewrite Hfold.
Qed.

(** ** Lookup of the targets *)

Section LookupFacts.

Context {S : Type}.
Variable client : Client S.
Variable WorkloadForKind : string → Workload.t + error.t.
Variable WorkloadListForKind : string → WorkloadList.t + error.t.
Variable LabelsSelector : WorkloadSelectorSpec.t → Selector + error.t.

Abbreviation listWorkloads' :=
  (listWorkloads client WorkloadForKind WorkloadListForKind LabelsSelector).

(** The calls of [loadByName] and [loadByLabelSelector] ask in the
    namespace they are given. *)
Lemma listWorkloads_reads_in sel ns (w : World S) :
  ∃ cs,
    calls ((if bool_decide (WorkloadSelectorSpec.Name sel ≠ "")
            then loadByName client WorkloadForKind sel ns
            else loadByLabelSelector client WorkloadListForKind
                   LabelsSelector sel ns) w).2 = calls w ++ cs
    ∧ Forall (λ c, callNamespace c = Some ns) cs.
Proof.
  destruct (bool_decide _).
  - unfold loadByName.
    destruct (WorkloadForKind _) as [wl|err]; simpl.
    + unfold bind, r_GetObject. simpl.
      exists [CallGetObject (ns, WorkloadSelectorSpec.Name sel) wl].
      split; [|by repeat constructor].
      destruct (GetObject client _ wl (store w)) as [wl'|err]; simpl;
        [done|]. by destruct (error.IsNotFound err).
    + exists []. by rewrite app_nil_r.
  - unfold loadByLabelSelector.
    destruct (LabelsSelector sel) as [parsed|err]; simpl;
      [|exists []; by rewrite app_nil_r].
    destruct (WorkloadListForKind _) as [wl|err]; simpl;
      [|exists []; by rewrite app_nil_r].
    unfold bind, r_List. simpl. exists [CallList wl ns parsed].
    split; [|by repeat constructor].
    by destruct (List client wl ns parsed (store w)).
Qed.

(** X8: a selector with a name is resolved by name alone.  The label
    selector it carries, the parser of label selectors and the registry of
    list kinds have no influence on the outcome, and the only call issued
    is a point get of (namespace, name). *)
Theorem listWorkloads_name_precedence
    (sel : WorkloadSelectorSpec.t) (ns : string) (w : World S)
    (WorkloadListForKind2 : string → WorkloadList.t + error.t)
    (LabelsSelector2 : WorkloadSelectorSpec.t → Selector + error.t)
    (ls : option LabelSelector.t) :
  WorkloadSelectorSpec.Name sel ≠ "" →
  listWorkloads' sel ns w
  = listWorkloads client WorkloadForKind WorkloadListForKind2 LabelsSelector2
      (withSelector sel ls) ns w
  ∧ Forall (λ c, ∃ obj, c = CallGetObject
                              (lookupNamespace sel ns,
                               WorkloadSelectorSpec.Name sel) obj)
      (newCalls (listWorkloads' sel ns) w).
Proof.
  intros Hname. unfold listWorkloads, withSelector, lookupNamespace. simpl.
  rewrite (bool_decide_eq_true_2 _ Hname). split; [done|].
  unfold newCalls, loadByName. simpl.
  destruct (WorkloadForKind _) as [wl|err]; simpl.
  - unfold bind, r_GetObject. simpl.
    assert (∀ (r : Workload.t + error.t) (c : Call),
      calls
        (match r with
         | inl wl' => ret (inl [wl'])
         | inr err =>
             if error.IsNotFound err then ret (inl [])
             else ret (inr (Errorf
               ("unable to load resource by name "
                +:+ (if bool_decide (WorkloadSelectorSpec.Namespace sel ≠ "")
                     then WorkloadSelectorSpec.Namespace sel else ns)
                +:+ "/" +:+ WorkloadSelectorSpec.Name sel +:+ ":  "
                +:+ error.Error err)))
         end (logCall c w)).2 = calls w ++ [c]) as Hcalls.
    { intros [wl'|err] c; simpl; [done|].
      by destruct (error.IsNotFound err). }
    rewrite Hcalls, drop_app_length.
    constructor; [by eexists|constructor].
  - rewrite drop_all. constructor.
Qed.

(** X9: a selector with a namespace is resolved in that namespace.  The
    namespace of the resource, which is the default, has no influence;
    every call issued asks in the namespace of the selector; a named
    target that the point get finds there is the one target returned, and
    for a selector without a name the workloads that the list call returns
    for that namespace are the targets returned. *)
Theorem listWorkloads_namespace_override
    (sel : WorkloadSelectorSpec.t) (ns ns2 : string) (w : World S) :
  WorkloadSelectorSpec.Namespace sel ≠ "" →
  listWorkloads' sel ns w = listWorkloads' sel ns2 w
  ∧ Forall (λ c, callNamespace c = Some (WorkloadSelectorSpec.Namespace sel))
      (newCalls (listWorkloads' sel ns) w)
  ∧ (∀ wl found,
       WorkloadSelectorSpec.Name sel ≠ "" →
       WorkloadForKind (WorkloadSelectorSpec.Kind sel) = inl wl →
       GetObject client
         (WorkloadSelectorSpec.Namespace sel, WorkloadSelectorSpec.Name sel)
         wl (store w) = inl found →
       (listWorkloads' sel ns w).1 = inl [found]
       ∧ newCalls (listWorkloads' sel ns) w
         = [CallGetObject
              (WorkloadSelectorSpec.Namespace sel,
               WorkloadSelectorSpec.Name sel) wl])
  ∧ (∀ parsed wl found,
       WorkloadSelectorSpec.Name sel = "" →
       LabelsSelector sel = inl parsed →
       WorkloadListForKind
         (ParseKindArg_Kind (WorkloadSelectorSpec.Kind sel)) = inl wl →
       List client wl (WorkloadSelectorSpec.Namespace sel) parsed (store w)
       = inl found →
       (listWorkloads' sel ns w).1 = inl (WorkloadList.Workloads found)
       ∧ newCalls (listWorkloads' sel ns) w
         = [CallList wl (WorkloadSelectorSpec.Namespace sel) parsed]).
Proof.
  intros Hns. unfold newCalls, listWorkloads.
  rewrite (bool_decide_eq_true_2 _ Hns).
  split; [done|]. split; [|split].
  - destruct (listWorkloads_reads_in sel
                (WorkloadSelectorSpec.Namespace sel) w) as (cs & Hcs & Hin).
    by rewrite Hcs, drop_app_length.
  - intros wl found Hname Hkind Hget.
    rewrite (bool_decide_eq_true_2 _ Hname). unfold loadByName.
    rewrite Hkind. unfold bind, r_GetObject. simpl. rewrite Hget. simpl.
    split; [done|]. by rewrite drop_app_length.
  - intros parsed wl found Hname Hparse Hkind Hlist.
    rewrite bool_decide_eq_false_2 by (intros H; by apply H).
    unfold loadByLabelSelector. rewrite Hparse, Hkind.
    unfold bind, r_List. simpl. rewrite Hlist. simpl.
    split; [done|]. by rewrite drop_app_length.
Qed.


(** X11: an error of a lookup by labels is the error of the parser of the
    label selector, of the registry of list kinds, asked for the kind up to
    its first dot, or of the list call in the namespace of the lookup; it
    is handed on as it is. *)
Theorem listWorkloads_label_error_passthrough
    (sel : WorkloadSelectorSpec.t) (ns : string) (w : World S)
    (err : error.t) :
  WorkloadSelectorSpec.Name sel = "" →
  (listWorkloads' sel ns w).1 = inr err →
  LabelsSelector sel = inr err
  ∨ WorkloadListForKind
      (ParseKindArg_Kind (WorkloadSelectorSpec.Kind sel)) = inr err
  ∨ ∃ wl parsed,
      LabelsSelector sel = inl parsed
      ∧ WorkloadListForKind
          (ParseKindArg_Kind (WorkloadSelectorSpec.Kind sel)) = inl wl
      ∧ List client wl (lookupNamespace sel ns) parsed (store w) = inr err.
Proof.
  intros Hname. unfold listWorkloads, loadByLabelSelector, lookupNamespace.
  rewrite bool_decide_eq_false_2 by (intros H; by apply H).
  destruct (LabelsSelector sel) as [parsed|e0]; simpl;
    [|intros [= <-]; by left].
  destruct (WorkloadListForKind _) as [wl|e1]; simpl;
    [|intros [= <-]; right; by left].
  unfold bind, r_List. simpl.
  destruct (List client wl _ parsed (store w)) as [wl'|e2] eqn:Hlist; simpl;
    [done|].
  intros [= <-]. right. right. by exists wl, parsed.
Qed.

End LookupFacts.

Lemma listWorkloads_name_precedence_witness :
  listWorkloads Sample.client Sample.WorkloadForKind
    Sample.WorkloadListForKind Sample.LabelsSelector
    (Sample.selectorByName "Deployment" "web") "default"
    (Sample.emptyWorld recentlyDeletedCache.empty)
  = listWorkloads Sample.client Sample.WorkloadForKind
      (λ _, inr Sample.unavailable) (λ _, inr Sample.unavailable)
      (withSelector (Sample.selectorByName "Deployment" "web")
         (Some {| LabelSelector.MatchLabels := [("app", "web")];
                  LabelSelector.MatchExpressions := [] |}))
      "default" (Sample.emptyWorld recentlyDeletedCache.empty).
Proof.
  refine (proj1 (listWorkloads_name_precedence Sample.client
    Sample.WorkloadForKind Sample.WorkloadListForKind Sample.LabelsSelector
    (Sample.selectorByName "Deployment" "web") "default"
    (Sample.emptyWorld recentlyDeletedCache.empty)
    (λ _, inr Sample.unavailable) (λ _, inr Sample.unavailable)
    (Some {| LabelSelector.MatchLabels := [("app", "web")];
             LabelSelector.MatchExpressions := [] |}) _)).
  discriminate.
Defined.

Lemma listWorkloads_namespace_override_witness :
  (listWorkloads Sample.client Sample.WorkloadForKind
     Sample.WorkloadListForKind Sample.LabelsSelector
     (WorkloadSelectorSpec.mk "Deployment" "default" "web" None) "staging"
     Sample.deletedWorld).1 = inl [Sample.deployment "web"]
  ∧ newCalls
      (listWorkloads Sample.client Sample.WorkloadForKind
         Sample.WorkloadListForKind Sample.LabelsSelector
         (WorkloadSelectorSpec.mk "Deployment" "default" "web" None)
         "staging")
      Sample.deletedWorld
    = [CallGetObject ("default", "web")
         (Sample.emptyObject "Deployment" "apps/v1")].
Proof.
  refine (proj1 (proj2 (proj2 (listWorkloads_namespace_override
    Sample.client Sample.WorkloadForKind Sample.WorkloadListForKind
    Sample.LabelsSelector
    (WorkloadSelectorSpec.mk "Deployment" "default" "web" None)
    "staging" "other" Sample.deletedWorld _)))
    (Sample.emptyObject "Deployment" "apps/v1") (Sample.deployment "web")
    _ _ _); [discriminate|discriminate|reflexivity|reflexivity].
Defined.


Lemma listWorkloads_label_error_passthrough_witness :
  Sample.LabelsSelector (Sample.selectorByKind "Deployment")
  = inr Sample.unavailable
  ∨ Sample.WorkloadListForKind
      (ParseKindArg_Kind
         (WorkloadSelectorSpec.Kind (Sample.selectorByKind "Deployment")))
    = inr Sample.unavailable
  ∨ ∃ wl parsed,
      Sample.LabelsSelector (Sample.selectorByKind "Deployment") = inl parsed
      ∧ Sample.WorkloadListForKind
          (ParseKindArg_Kind
             (WorkloadSelectorSpec.Kind (Sample.selectorByKind "Deployment")))
        = inl wl
      ∧ List Sample.client wl
          (lookupNamespace (Sample.selectorByKind "Deployment") "default")
          parsed (store Sample.outageWorld) = inr Sample.unavailable.
Proof.
  refine (listWorkloads_label_error_passthrough Sample.client
    Sample.WorkloadForKind Sample.WorkloadListForKind Sample.LabelsSelector
    (Sample.selectorByKind "Deployment") "default" Sample.outageWorld
    Sample.unavailable _ _); [reflexivity|vm_compute; reflexivity].
Defined.

(** ** Marking the targets *)

Lemma replaceStatus_keeps_other statuses u e :
  e ∈ statuses →
  WorkloadStatus.key e ≠ WorkloadStatus.key u →
  e ∈ replaceStatus statuses u.
Proof.
  intros He Hk. rewrite replaceStatus_slots. apply elem_of_app. left.
  apply list_elem_of_fmap. exists e. split; [|done].
  by rewrite (proj2 (sameWorkload_false_key e u)).
Qed.

Lemma replaceStatus_unique_keys statuses u :
  uniqueKeys statuses → uniqueKeys (replaceStatus statuses u).
Proof.
  unfold uniqueKeys. intros Huniq. rewrite replaceStatus_key_list.
  case_bool_decide as Hin; [by rewrite app_nil_r|].
  apply NoDup_app. split; [done|]. split; [|apply NoDup_singleton].
  intros k Hk Hk'. by apply list_elem_of_singleton in Hk' as ->.
Qed.

Section MarkFacts.

Context {S : Type}.
Variable clock : nat → Z.
Variable ConditionWorkloadUpToDate : string.
Variable ReasonUpToDate : string.

Abbreviation markWorkloads' :=
  (markWorkloads (S := S) clock ConditionWorkloadUpToDate ReasonUpToDate).
Abbreviation isMarked' :=
  (isMarked ConditionWorkloadUpToDate ReasonUpToDate).
Abbreviation statusesOf r :=
  (AuthProxyWorkloadStatus.WorkloadStatus (AuthProxyWorkload.Status r)).

(** One round of the loop: the entry of the workload, marked at the clock
    reading, is merged into the statuses. *)
Lemma markWorkloads_cons wl rest resource (w : World S) :
  ∃ t w1,
    markWorkloads' (wl :: rest) resource w
    = markWorkloads' rest
        (AuthProxyWorkload.setWorkloadStatus resource
           (replaceStatus (statusesOf resource)
              (WorkloadStatus.setConditions (newStatus wl)
                 [{| Condition.Type_ := ConditionWorkloadUpToDate;
                     Condition.Status := ConditionTrue;
                     Condition.ObservedGeneration :=
                       AuthProxyWorkload.GetGeneration resource;
                     Condition.LastTransitionTime := Some t;
                     Condition.Reason := ReasonUpToDate;
                     Condition.Message :=
                       "No update needed for this workload" |}]))) w1.
Proof. by eexists _, _. Qed.

Lemma markWorkloads_keeps_marked matching resource (w : World S) k :
  (∃ e, e ∈ statusesOf resource
        ∧ WorkloadStatus.key e = k
        ∧ isMarked' (AuthProxyWorkload.GetGeneration resource) e) →
  ∃ e, e ∈ statusesOf (markWorkloads' matching resource w).1
       ∧ WorkloadStatus.key e = k
       ∧ isMarked' (AuthProxyWorkload.GetGeneration resource) e.
Proof.
  revert resource w. induction matching as [|wl rest IH];
    intros resource w (e & He & Hk & Hm); [by exists e|].
  destruct (markWorkloads_cons wl rest resource w) as (t & w1 & ->).
  match goal with
  | |- context [markWorkloads' rest ?r w1] => apply (IH r w1)
  end.
  simpl.
  match goal with
  | |- context [replaceStatus _ ?s] =>
      destruct (decide (WorkloadStatus.key e = WorkloadStatus.key s))
        as [Hsame|Hother];
      [exists s; split; [apply replaceStatus_matches|];
       split; [congruence|by exists t]
      |exists e; split; [by apply replaceStatus_keeps_other|done]]
  end.
Qed.

Lemma markWorkloads_marks matching resource (w : World S) wl :
  wl ∈ matching →
  ∃ e, e ∈ statusesOf (markWorkloads' matching resource w).1
       ∧ WorkloadStatus.key e = WorkloadStatus.key (newStatus wl)
       ∧ isMarked' (AuthProxyWorkload.GetGeneration resource) e.
Proof.
  revert resource w. induction matching as [|wl0 rest IH];
    intros resource w Hwl; [by apply elem_of_nil in Hwl|].
  destruct (markWorkloads_cons wl0 rest resource w) as (t & w1 & ->).
  apply elem_of_cons in Hwl as [->|Hwl].
  - match goal with
    | |- context [markWorkloads' rest ?r w1] =>
        apply (markWorkloads_keeps_marked rest r w1)
    end.
    simpl. eexists. split; [apply replaceStatus_matches|].
    split; [done|by exists t].
  - match goal with
    | |- context [markWorkloads' rest ?r w1] => apply (IH r w1 Hwl)
    end.
Qed.

Lemma markWorkloads_key_list matching resource (w : World S) :
  ∃ added,
    WorkloadStatus.key <$> statusesOf (markWorkloads' matching resource w).1
    = (WorkloadStatus.key <$> statusesOf resource) ++ added
    ∧ (length added ≤ length matching)%nat.
Proof.
  revert resource w. induction matching as [|wl rest IH]; intros resource w.
  - exists []. by rewrite app_nil_r.
  - destruct (markWorkloads_cons wl rest resource w) as (t & w1 & ->).
    match goal with
    | |- context [markWorkloads' rest ?r w1] =>
        destruct (IH r w1) as (added & -> & Hlen)
    end.
    simpl. rewrite replaceStatus_key_list, <- app_assoc.
    eexists. split; [done|].
    rewrite length_app. case_bool_decide; simpl; lia.
Qed.

Lemma markWorkloads_unique matching resource (w : World S) :
  uniqueKeys (statusesOf resource) →
  uniqueKeys (statusesOf (markWorkloads' matching resource w).1).
Proof.
  revert resource w. induction matching as [|wl rest IH]; intros resource w;
    [done|].
  intros Huniq.
  destruct (markWorkloads_cons wl rest resource w) as (t & w1 & ->).
  apply IH. simpl. by apply replaceStatus_unique_keys.
Qed.

End MarkFacts.

(** ** The states of the reconcile loop *)

Section StateFacts.

Context {S : Type}.
Variable client : Client S.
Variable clock : nat → Z.
Variable WorkloadForKind : string → Workload.t + error.t.
Variable WorkloadListForKind : string → WorkloadList.t + error.t.
Variable LabelsSelector : WorkloadSelectorSpec.t → Selector + error.t.
Variable AnnotationPrefix : string.
Variable ConditionUpToDate : string.
Variable ConditionWorkloadUpToDate : string.
Variable ReasonNoWorkloadsFound : string.
Variable ReasonFinishedReconcile : string.
Variable ReasonUpToDate : string.

Abbreviation updateWorkloadStatus' :=
  (updateWorkloadStatus client clock WorkloadForKind WorkloadListForKind
     LabelsSelector ConditionWorkloadUpToDate ReasonUpToDate).
Abbreviation doDelete' :=
  (doDelete client clock WorkloadForKind WorkloadListForKind LabelsSelector
     AnnotationPrefix ConditionWorkloadUpToDate ReasonUpToDate).
Abbreviation doCreateUpdate' :=
  (doCreateUpdate client clock WorkloadForKind WorkloadListForKind
     LabelsSelector AnnotationPrefix ConditionUpToDate
     ConditionWorkloadUpToDate ReasonNoWorkloadsFound ReasonFinishedReconcile
     ReasonUpToDate).
Abbreviation Reconcile' :=
  (Reconcile client clock WorkloadForKind WorkloadListForKind LabelsSelector
     AnnotationPrefix ConditionUpToDate ConditionWorkloadUpToDate
     ReasonNoWorkloadsFound ReasonFinishedReconcile ReasonUpToDate).
Abbreviation finalizerName' := (finalizerName AnnotationPrefix).
Abbreviation statusesOf r :=
  (AuthProxyWorkloadStatus.WorkloadStatus (AuthProxyWorkload.Status r)).
Abbreviation conditionsOf r :=
  (AuthProxyWorkloadStatus.Conditions (AuthProxyWorkload.Status r)).
Abbreviation isDeleted r :=
  (negb (Time_IsZero
           (ObjectMeta.DeletionTimestamp (AuthProxyWorkload.Meta r)))).

Lemma newCalls_app {A : Type} (m : M S A) (w : World S) (cs : list Call) :
  calls (m w).2 = calls w ++ cs → newCalls m w = cs.
Proof. intros Hcs. unfold newCalls. by rewrite Hcs, drop_app_length. Qed.

(** X12: when [updateWorkloadStatus] succeeds, every workload it returns
    has an entry in the statuses of the resource in memory, under the kind,
    version, namespace and name of the workload, marked up to date for the
    generation of the resource. *)
Theorem updateWorkloadStatus_marks_matching
    (resource : AuthProxyWorkload.t) (w : World S)
    (matching : list Workload.t) (wl : Workload.t) :
  (updateWorkloadStatus' resource w).1.1 = inl matching →
  wl ∈ matching →
  ∃ e, e ∈ statusesOf (updateWorkloadStatus' resource w).1.2
       ∧ WorkloadStatus.key e
         = (Workload.Kind wl, Workload.Version wl, Workload.Namespace wl,
            Workload.Name wl)
       ∧ isMarked ConditionWorkloadUpToDate ReasonUpToDate
           (AuthProxyWorkload.GetGeneration resource) e.
Proof.
  unfold updateWorkloadStatus, bind.
  destruct (listWorkloads _ _ _ _ _ _ w) as [[found|err] w1]; simpl;
    [|done].
  pose proof (markWorkloads_marks clock ConditionWorkloadUpToDate
                ReasonUpToDate found resource w1 wl) as Hmarks.
  destruct (markWorkloads _ _ _ found resource w1) as [resource' w2].
  simpl in *. intros [= <-] Hwl. by apply Hmarks.
Qed.

(** X13: [updateWorkloadStatus] drops no status entry.  The identifying
    tuples the resource had stay where they were, also those of workloads
    that do not match any more, and at most one tuple per returned workload
    is added behind them. *)
Theorem updateWorkloadStatus_keeps_entries
    (resource : AuthProxyWorkload.t) (w : World S) :
  ∃ added,
    WorkloadStatus.key <$> statusesOf (updateWorkloadStatus' resource w).1.2
    = (WorkloadStatus.key <$> statusesOf resource) ++ added
    ∧ (length added
       ≤ match (updateWorkloadStatus' resource w).1.1 with
         | inl matching => length matching
         | inr _ => 0
         end)%nat.
Proof.
  unfold updateWorkloadStatus, bind.
  destruct (listWorkloads _ _ _ _ _ _ w) as [[found|err] w1]; simpl.
  - pose proof (markWorkloads_key_list clock ConditionWorkloadUpToDate
                  ReasonUpToDate found resource w1) as Hkeys.
    by destruct (markWorkloads _ _ _ found resource w1) as [resource' w2].
  - exists []. by rewrite app_nil_r.
Qed.

(** X14: [updateWorkloadStatus] keeps the invariant of the statuses: with
    at most one entry per (kind, version, namespace, name) before, there is
    at most one per tuple after. *)
Theorem updateWorkloadStatus_unique
    (resource : AuthProxyWorkload.t) (w : World S) :
  uniqueKeys (statusesOf resource) →
  uniqueKeys (statusesOf (updateWorkloadStatus' resource w).1.2).
Proof.
  intros Huniq. unfold updateWorkloadStatus, bind.
  destruct (listWorkloads _ _ _ _ _ _ w) as [[found|err] w1]; simpl;
    [|done].
  pose proof (markWorkloads_unique clock ConditionWorkloadUpToDate
                ReasonUpToDate found resource w1 Huniq) as Hkeys.
  by destruct (markWorkloads _ _ _ found resource w1) as [resource' w2].
Qed.

(** A fetched resource without a deletion timestamp goes to
    [doCreateUpdate]. *)
Lemma Reconcile_live req (w : World S) resource :
  Get client req (store w) = inl resource →
  isDeleted resource = false →
  Reconcile' req w = doCreateUpdate' resource (afterFetch req false w).
Proof.
  intros Hget Hlive. unfold Reconcile, bind, r_Get, afterFetch. simpl.
  by rewrite Hget, Hlive.
Qed.

Lemma afterFetch_facts req deleted (w : World S) :
  store (afterFetch req deleted w) = store w
  ∧ calls (afterFetch req deleted w) = calls w ++ [CallGet req]
  ∧ recentlyDeleted (afterFetch req deleted w)
    = recentlyDeletedCache.set (recentlyDeleted w) req deleted.
Proof. done. Qed.

(** [reconcileResult], step by step. *)
Lemma reconcileResult_steps resource orig reason message (w : World S) :
  let obj :=
    AuthProxyWorkload.setConditions resource
      (replaceCondition (clock (ticks w)) (conditionsOf resource)
         {| Condition.Type_ := ConditionUpToDate;
            Condition.Status := ConditionTrue;
            Condition.ObservedGeneration :=
              AuthProxyWorkload.GetGeneration resource;
            Condition.LastTransitionTime := None;
            Condition.Reason := reason;
            Condition.Message := message |}) in
  let key := (AuthProxyWorkload.GetNamespace resource,
              AuthProxyWorkload.GetName resource) in
  let p := StatusPatch client obj orig (store w) in
  let out := reconcileResult client clock ConditionUpToDate resource orig
               reason message w in
  out.1 = (noRequeue,
           match p.1 with
           | Some e => Some e
           | None => match Get client key p.2 with
                     | inr e => Some e
                     | inl _ => None
                     end
           end)
  ∧ calls out.2
    = calls w ++ CallStatusPatch obj orig
        :: match p.1 with Some _ => [] | None => [CallGet key] end
  ∧ store out.2 = p.2
  ∧ recentlyDeleted out.2 = recentlyDeleted w.
Proof.
  unfold reconcileResult, bind, r_replaceCondition. simpl.
  destruct (readsClock _ _);
    unfold patchAuthProxyWorkloadStatus, bind, r_StatusPatch, r_Get; simpl;
    destruct (StatusPatch client _ orig (store w)) as [[e|] s']; simpl;
    try done;
    destruct (Get client _ s'); simpl; by rewrite <- app_assoc.
Qed.

(** X15: a fetched resource that is not marked deleted and does not hold
    the finalizer is sent once, with the finalizer appended and nothing
    else changed; no target is looked up, and the invocation asks for an
    immediate requeue whatever the update answers. *)
Theorem Reconcile_adds_finalizer
    (req : NamespacedName) (w : World S) (resource : AuthProxyWorkload.t) :
  Get client req (store w) = inl resource →
  isDeleted resource = false →
  ContainsFinalizer resource finalizerName' = false →
  let obj :=
    AuthProxyWorkload.SetFinalizers resource
      (AuthProxyWorkload.GetFinalizers resource ++ [finalizerName']) in
  (Reconcile' req w).1 = (requeueNow, (Update client obj (store w)).1)
  ∧ newCalls (Reconcile' req) w = [CallGet req; CallUpdate obj]
  ∧ store (Reconcile' req w).2 = (Update client obj (store w)).2
  ∧ ContainsFinalizer obj finalizerName' = true.
Proof.
  intros Hget Hlive Hfin. simpl. unfold newCalls.
  rewrite (Reconcile_live _ _ _ Hget Hlive).
  unfold doCreateUpdate, applyFinalizer, AddFinalizer.
  unfold ContainsFinalizer in Hfin. rewrite Hfin.
  unfold ContainsFinalizer. rewrite Hfin. simpl.
  unfold bind, r_Update. simpl.
  split; [by destruct (Update client _ (store w)) as [[e|] s']|].
  split.
  - destruct (Update client _ (store w)) as [[e|] s']; simpl;
      by rewrite <- app_assoc, drop_app_length.
  - split; [by destruct (Update client _ (store w)) as [[e|] s']|].
    unfold AuthProxyWorkload.GetFinalizers. simpl.
    clear. induction (ObjectMeta.Finalizers _) as [|f fs IH]; simpl.
    + by rewrite bool_decide_eq_true_2.
    + by destruct (bool_decide (f = finalizerName')).
Qed.

(** X16: when the resource holds the finalizer and the lookup of the
    targets fails, the invocation returns that error with the requeue after
    the delay and sends nothing: the store is as before. *)
Theorem Reconcile_lookup_error_requeues
    (req : NamespacedName) (w : World S) (resource : AuthProxyWorkload.t)
    (err : error.t) :
  Get client req (store w) = inl resource →
  isDeleted resource = false →
  ContainsFinalizer resource finalizerName' = true →
  (updateWorkloadStatus' resource (afterFetch req false w)).1.1 = inr err →
  (Reconcile' req w).1 = (requeueWithDelay, Some err)
  ∧ writes (newCalls (Reconcile' req) w) = []
  ∧ store (Reconcile' req w).2 = store w.
Proof.
  intros Hget Hlive Hfin Herr. unfold newCalls.
  rewrite (Reconcile_live _ _ _ Hget Hlive).
  destruct (updateWorkloadStatus_frame client clock WorkloadForKind
              WorkloadListForKind LabelsSelector ConditionWorkloadUpToDate
              ReasonUpToDate resource (afterFetch req false w))
    as (reads & (Hstore & _ & Hcalls) & _ & Hreads & _).
  apply lookupCall_not_write in Hreads.
  unfold doCreateUpdate. rewrite Hfin. simpl. unfold bind.
  destruct (updateWorkloadStatus' resource (afterFetch req false w))
    as [[res resource'] w1].
  simpl in *. subst res. simpl. split; [done|]. split; [|done].
  rewrite Hcalls, <- app_assoc, drop_app_length. simpl.
  by rewrite writes_cons_read.
Qed.

(** X17: when the resource holds the finalizer and the lookup of the
    targets succeeds, the one write of the invocation is a status patch
    against the fetched resource.  The patched object has the metadata of
    the fetched resource, the target statuses as recomputed, and a
    condition of type UpToDate with status true, the generation of the
    resource, a set timestamp, and reason and message that tell whether
    targets were found; conditions of other types are as fetched.  The
    invocation asks for no requeue; it returns the error of the patch, or
    else the error of reading the resource again. *)
Theorem Reconcile_marks_up_to_date
    (req : NamespacedName) (w : World S) (resource : AuthProxyWorkload.t)
    (matching : list Workload.t) :
  Get client req (store w) = inl resource →
  isDeleted resource = false →
  ContainsFinalizer resource finalizerName' = true →
  (updateWorkloadStatus' resource (afterFetch req false w)).1.1
  = inl matching →
  ∃ obj cond,
    writes (newCalls (Reconcile' req) w) = [CallStatusPatch obj resource]
    ∧ AuthProxyWorkload.Meta obj = AuthProxyWorkload.Meta resource
    ∧ statusesOf obj
      = statusesOf
          (updateWorkloadStatus' resource (afterFetch req false w)).1.2
    ∧ findCondition (conditionsOf obj) ConditionUpToDate = Some cond
    ∧ Condition.Status cond = ConditionTrue
    ∧ Condition.ObservedGeneration cond
      = AuthProxyWorkload.GetGeneration resource
    ∧ Condition.Reason cond
      = (if bool_decide (length matching = 0%nat)
         then ReasonNoWorkloadsFound else ReasonFinishedReconcile)
    ∧ Condition.Message cond
      = (if bool_decide (length matching = 0%nat)
         then "No workload updates needed"
         else reconciledMessage (length matching))
    ∧ Time_IsZero (Condition.LastTransitionTime cond) = false
    ∧ (∀ ty, ty ≠ ConditionUpToDate →
             findCondition (conditionsOf obj) ty
             = findCondition (conditionsOf resource) ty)
    ∧ (Reconcile' req w).1.1 = noRequeue
    ∧ (Reconcile' req w).1.2
      = match (StatusPatch client obj resource (store w)).1 with
        | Some e => Some e
        | None =>
            match Get client (AuthProxyWorkload.GetNamespace resource,
                              AuthProxyWorkload.GetName resource)
                    (StatusPatch client obj resource (store w)).2 with
            | inr e => Some e
            | inl _ => None
            end
        end.
Proof.
  intros Hget Hlive Hfin Hok. unfold newCalls.
  rewrite (Reconcile_live _ _ _ Hget Hlive).
  destruct (updateWorkloadStatus_frame client clock WorkloadForKind
              WorkloadListForKind LabelsSelector ConditionWorkloadUpToDate
              ReasonUpToDate resource (afterFetch req false w))
    as (reads & (Hstore & _ & Hcalls) & _ & Hreads & Hsame & _).
  apply lookupCall_not_write in Hreads.
  unfold doCreateUpdate. rewrite Hfin. simpl. unfold bind.
  destruct (updateWorkloadStatus' resource (afterFetch req false w))
    as [[res resource'] w1].
  simpl in *. subst res. destruct Hsame as (Hmeta & _ & Hconds).
  set (reason := if bool_decide (length matching = 0%nat)
                 then ReasonNoWorkloadsFound else ReasonFinishedReconcile).
  set (message := if bool_decide (length matching = 0%nat)
                  then "No workload updates needed"
                  else reconciledMessage (length matching)).
  assert ((if bool_decide (length matching = 0%nat)
           then reconcileResult client clock ConditionUpToDate resource'
                  resource ReasonNoWorkloadsFound "No workload updates needed"
           else reconcileResult client clock ConditionUpToDate resource'
                  resource ReasonFinishedReconcile
                  (reconciledMessage (length matching))) w1
          = reconcileResult client clock ConditionUpToDate resource'
              resource reason message w1) as ->.
  { unfold reason, message. by destruct (bool_decide _). }
  destruct (reconcileResult_steps resource' resource reason message w1)
    as (Hout & Hlog & _).
  set (newC := {| Condition.Type_ := ConditionUpToDate;
                  Condition.Status := ConditionTrue;
                  Condition.ObservedGeneration :=
                    AuthProxyWorkload.GetGeneration resource';
                  Condition.LastTransitionTime := None;
                  Condition.Reason := reason;
                  Condition.Message := message |}) in *.
  destruct (replaceCondition_then_find_aux (clock (ticks w1))
              (conditionsOf resource') newC)
    as (cond & Hfind & Hst & Hgen & Hre & Hmsg & Hts).
  eexists _, cond.
  split.
  { rewrite Hlog, Hcalls, <- !app_assoc, drop_app_length. simpl.
    rewrite writes_cons_read by done. rewrite writes_app, Hreads. simpl.
    unfold writes. rewrite filter_cons. simpl.
    by destruct (StatusPatch client _ resource (store w1)).1. }
  split; [done|]. split; [done|]. split; [exact Hfind|].
  split; [done|].
  split.
  { rewrite Hgen. simpl. unfold AuthProxyWorkload.GetGeneration.
    by rewrite Hmeta. }
  split; [done|]. split; [done|]. split; [done|].
  split.
  { intros ty Hty. simpl. rewrite <- Hconds.
    by apply findCondition_replaceCondition_ne. }
  rewrite Hout, Hstore. simpl. split; [done|].
  unfold AuthProxyWorkload.GetNamespace, AuthProxyWorkload.GetName.
  by rewrite Hmeta.
Qed.

(** X18: a resource marked deleted that does not hold the finalizer is not
    written at all: the invocation only looks the targets up, and returns
    the lookup error with an immediate requeue, or nothing to do. *)
Theorem Reconcile_deleted_without_finalizer
    (req : NamespacedName) (w : World S) (resource : AuthProxyWorkload.t) :
  Get client req (store w) = inl resource →
  isDeleted resource = true →
  ContainsFinalizer resource finalizerName' = false →
  writes (newCalls (Reconcile' req) w) = []
  ∧ store (Reconcile' req w).2 = store w
  ∧ (Reconcile' req w).1
    = match (updateWorkloadStatus' resource (afterFetch req true w)).1.1 with
      | inr err => (requeueNow, Some err)
      | inl _ => (noRequeue, None)
      end.
Proof.
  intros Hget Hdel Hfin. unfold newCalls.
  apply negb_true_iff in Hdel.
  rewrite (Reconcile_deleted client clock WorkloadForKind WorkloadListForKind
             LabelsSelector AnnotationPrefix ConditionUpToDate
             ConditionWorkloadUpToDate ReasonNoWorkloadsFound
             ReasonFinishedReconcile ReasonUpToDate _ _ _ Hget Hdel).
  destruct (doDelete_steps client clock WorkloadForKind WorkloadListForKind
              LabelsSelector AnnotationPrefix ConditionWorkloadUpToDate
              ReasonUpToDate resource (afterFetch req true w))
    as (reads & (Hstore & _ & Hcalls) & _ & Hreads & Hdelete).
  rewrite Hfin in Hdelete.
  assert (doDelete' resource (afterFetch req true w)
          = (match (updateWorkloadStatus' resource
                      (afterFetch req true w)).1.1 with
             | inr err => (requeueNow, Some err)
             | inl _ => (noRequeue, None)
             end,
             (updateWorkloadStatus' resource (afterFetch req true w)).2))
    as ->.
  { by destruct (updateWorkloadStatus' resource (afterFetch req true w)).1.1. }
  simpl. rewrite Hcalls, Hstore. simpl.
  rewrite <- app_assoc, drop_app_length. simpl.
  by rewrite writes_cons_read.
Qed.

Lemma doDelete_cache resource (w : World S) :
  recentlyDeleted (doDelete' resource w).2 = recentlyDeleted w.
Proof.
  destruct (doDelete_steps client clock WorkloadForKind WorkloadListForKind
              LabelsSelector AnnotationPrefix ConditionWorkloadUpToDate
              ReasonUpToDate resource w)
    as (reads & (_ & Hcache & _) & _ & _ & Hdelete).
  destruct (updateWorkloadStatus' resource w).1.1.
  - destruct (ContainsFinalizer resource finalizerName');
      by rewrite Hdelete.
  - by rewrite Hdelete.
Qed.

Lemma doCreateUpdate_cache resource (w : World S) :
  recentlyDeleted (doCreateUpdate' resource w).2 = recentlyDeleted w.
Proof.
  unfold doCreateUpdate.
  destruct (ContainsFinalizer resource finalizerName'); simpl.
  - destruct (updateWorkloadStatus_frame client clock WorkloadForKind
                WorkloadListForKind LabelsSelector ConditionWorkloadUpToDate
                ReasonUpToDate resource w)
      as (reads & (_ & Hcache & _) & _).
    unfold bind.
    destruct (updateWorkloadStatus' resource w) as [[res resource'] w1].
    simpl in *. destruct res as [matching|err]; [|done].
    rewrite <- Hcache.
    destruct (bool_decide _); apply reconcileResult_steps.
  - unfold applyFinalizer, bind, r_Update.
    by destruct (Update client _ _) as [[e|] s'].
Qed.

Lemma Reconcile_cache req (w : World S) :
  recentlyDeleted (Reconcile' req w).2
  = match Get client req (store w) with
    | inl resource =>
        recentlyDeletedCache.set (recentlyDeleted w) req (isDeleted resource)
    | inr _ => recentlyDeleted w
    end.
Proof.
  destruct (Get client req (store w)) as [resource|err] eqn:Hget.
  - destruct (isDeleted resource) eqn:Hdel.
    + apply negb_true_iff in Hdel.
      rewrite (Reconcile_deleted client clock WorkloadForKind
                 WorkloadListForKind LabelsSelector AnnotationPrefix
                 ConditionUpToDate ConditionWorkloadUpToDate
                 ReasonNoWorkloadsFound ReasonFinishedReconcile
                 ReasonUpToDate _ _ _ Hget Hdel).
      by rewrite doDelete_cache.
    + rewrite (Reconcile_live _ _ _ Hget Hdel).
      by rewrite doCreateUpdate_cache.
  - unfold Reconcile, bind, r_Get, recentlyDeleted_get. simpl.
    rewrite Hget. simpl. by destruct (recentlyDeletedCache.get _ _).
Qed.

(** X19: an invocation that fetches the resource records in the deletion
    cache, under the requested key, whether the resource is marked deleted;
    an invocation whose fetch fails leaves the cache as it was. *)
Theorem Reconcile_records_deletion (req : NamespacedName) (w : World S) :
  recentlyDeleted (Reconcile' req w).2
  = match Get client req (store w) with
    | inl resource =>
        recentlyDeletedCache.set (recentlyDeleted w) req (isDeleted resource)
    | inr _ => recentlyDeleted w
    end.
Proof. apply Reconcile_cache. Qed.

(** X20: two invocations for a key in a row.  When the first fetched the
    resource and the fetch of the second fails, the second ends quietly, no
    requeue and no error, if the first saw the resource marked deleted, and
    returns the fetch error with the requeue after the delay if it did
    not. *)
Theorem Reconcile_then_fetch_error
    (req : NamespacedName) (w : World S) (resource : AuthProxyWorkload.t)
    (err : error.t) :
  Get client req (store w) = inl resource →
  Get client req (store (Reconcile' req w).2) = inr err →
  (Reconcile' req (Reconcile' req w).2).1
  = if isDeleted resource then (noRequeue, None)
    else (requeueWithDelay, Some err).
Proof.
  intros Hfirst Hsecond.
  pose proof (Reconcile_cache req w) as Hcache. rewrite Hfirst in Hcache.
  unfold Reconcile at 1. unfold bind, r_Get, recentlyDeleted_get. simpl.
  rewrite Hsecond. simpl. rewrite Hcache.
  unfold recentlyDeletedCache.get, recentlyDeletedCache.set. simpl.
  rewrite lookup_insert_eq.
  by destruct (isDeleted resource).
Qed.

(** What [doCreateUpdate] and [doDelete] may return. *)
Lemma doDelete_outcome resource (w : World S) :
  (doDelete' resource w).1.1 = noRequeue
  ∨ ∃ err, (doDelete' resource w).1 = (requeueNow, Some err).
Proof.
  destruct (doDelete_steps client clock WorkloadForKind WorkloadListForKind
              LabelsSelector AnnotationPrefix ConditionWorkloadUpToDate
              ReasonUpToDate resource w) as (reads & _ & _ & _ & Hdelete).
  destruct (updateWorkloadStatus' resource w).1.1 as [matching|err].
  - left. destruct (ContainsFinalizer resource finalizerName');
      by rewrite Hdelete.
  - right. exists err. by rewrite Hdelete.
Qed.

Lemma doCreateUpdate_outcome resource (w : World S) :
  (doCreateUpdate' resource w).1.1 = noRequeue
  ∨ ((doCreateUpdate' resource w).1.1 = requeueNow
     ∧ ContainsFinalizer resource finalizerName' = false)
  ∨ ∃ err, (doCreateUpdate' resource w).1 = (requeueWithDelay, Some err).
Proof.
  unfold doCreateUpdate.
  destruct (ContainsFinalizer resource finalizerName'); simpl.
  - unfold bind.
    destruct (updateWorkloadStatus' resource w) as [[res resource'] w1].
    destruct res as [matching|err]; simpl.
    + left. destruct (bool_decide _);
        by rewrite (proj1 (reconcileResult_steps _ _ _ _ _)).
    + right. right. by exists err.
  - right. left. split; [|done].
    unfold applyFinalizer, bind, r_Update.
    by destruct (Update client _ _) as [[e|] s'].
Qed.

(** X21: the three ways an invocation ends.  It asks for no requeue; or
    for an immediate requeue, which without an error happens only after
    the finalizer was missing on a resource that is not marked deleted; or
    for the requeue after the delay, and then always with an error. *)
Theorem Reconcile_outcomes (req : NamespacedName) (w : World S) :
  (Reconcile' req w).1.1 = noRequeue
  ∨ ((Reconcile' req w).1.1 = requeueNow
     ∧ ((∃ err, (Reconcile' req w).1.2 = Some err)
        ∨ ∃ resource,
            Get client req (store w) = inl resource
            ∧ isDeleted resource = false
            ∧ ContainsFinalizer resource finalizerName' = false))
  ∨ ((Reconcile' req w).1.1 = requeueWithDelay
     ∧ ∃ err, (Reconcile' req w).1.2 = Some err).
Proof.
  destruct (Get client req (store w)) as [resource|err] eqn:Hget.
  - destruct (isDeleted resource) eqn:Hdel.
    + apply negb_true_iff in Hdel.
      rewrite (Reconcile_deleted client clock WorkloadForKind
                 WorkloadListForKind LabelsSelector AnnotationPrefix
                 ConditionUpToDate ConditionWorkloadUpToDate
                 ReasonNoWorkloadsFound ReasonFinishedReconcile
                 ReasonUpToDate _ _ _ Hget Hdel).
      destruct (doDelete_outcome resource (afterFetch req true w))
        as [Hno|(e & He)]; [by left|].
      right. left. rewrite He. split; [done|]. left. by exists e.
    + rewrite (Reconcile_live _ _ _ Hget Hdel).
      destruct (doCreateUpdate_outcome resource (afterFetch req false w))
        as [Hno|[[Hnow Hfin]|(e & He)]]; [by left| |].
      * right. left. split; [done|]. right. by exists resource.
      * right. right. rewrite He. split; [done|]. by exists e.
  - unfold Reconcile, bind, r_Get, recentlyDeleted_get. simpl.
    rewrite Hget. simpl.
    destruct (recentlyDeletedCache.get _ _); simpl; [by left|].
    right. right. split; [done|]. by exists err.
Qed.

End StateFacts.

(** ** The further properties on the sample cluster *)

Lemma updateWorkloadStatus_marks_matching_witness :
  ∃ e,
    e ∈ AuthProxyWorkloadStatus.WorkloadStatus
          (AuthProxyWorkload.Status
             (updateWorkloadStatus Sample.client Sample.clock
                Sample.WorkloadForKind Sample.WorkloadListForKind
                Sample.LabelsSelector "WorkloadUpToDate" "UpToDate"
                Sample.deletedResource Sample.deletedWorld).1.2)
    ∧ WorkloadStatus.key e = ("Deployment", "apps/v1", "default", "web")
    ∧ isMarked "WorkloadUpToDate" "UpToDate" 1 e.
Proof.
  refine (updateWorkloadStatus_marks_matching Sample.client Sample.clock
    Sample.WorkloadForKind Sample.WorkloadListForKind Sample.LabelsSelector
    "WorkloadUpToDate" "UpToDate" Sample.deletedResource Sample.deletedWorld
    [Sample.deployment "web"] (Sample.deployment "web") _ _);
    [vm_compute; reflexivity|constructor].
Defined.

Lemma updateWorkloadStatus_unique_witness :
  uniqueKeys Merging.statusesAfter
  ∧ WorkloadStatus.Name <$> Merging.statusesAfter = ["api"; "web"; "worker"].
Proof.
  split.
  - refine (updateWorkloadStatus_unique Sample.client Sample.clock
      Sample.WorkloadForKind Sample.WorkloadListForKind Sample.LabelsSelector
      "WorkloadUpToDate" "UpToDate" Merging.resource Merging.world _).
    unfold uniqueKeys. apply (bool_decide_unpack _). vm_compute. exact I.
  - vm_compute. reflexivity.
Defined.

Lemma Reconcile_adds_finalizer_witness :
  (Sample.Reconcile Sample.req
     (Sample.world
        (Sample.resource None [] (Sample.selectorByName "Deployment" "web"))
        [Sample.deployment "web"] recentlyDeletedCache.empty)).1
  = (requeueNow, None).
Proof.
  refine (proj1 (Reconcile_adds_finalizer Sample.client Sample.clock
    Sample.WorkloadForKind Sample.WorkloadListForKind Sample.LabelsSelector
    Sample.AnnotationPrefix "UpToDate" "WorkloadUpToDate" "NoWorkloadsFound"
    "FinishedReconcile" "UpToDate" Sample.req
    (Sample.world
       (Sample.resource None [] (Sample.selectorByName "Deployment" "web"))
       [Sample.deployment "web"] recentlyDeletedCache.empty)
    (Sample.resource None [] (Sample.selectorByName "Deployment" "web"))
    _ _ _)); reflexivity.
Defined.

Lemma Reconcile_lookup_error_requeues_witness :
  (Sample.Reconcile Sample.req
     (mkWorld
        (Sample.mkStore
           [(Sample.req,
             Sample.resource None [Sample.finalizer]
               (Sample.selectorByName "Deployment" "web"))]
           [Sample.deployment "web"] true false)
        recentlyDeletedCache.empty 0%nat [])).1
  = (requeueWithDelay,
     Some (Errorf
             "unable to load resource by name default/web:  unavailable")).
Proof.
  refine (proj1 (Reconcile_lookup_error_requeues Sample.client Sample.clock
    Sample.WorkloadForKind Sample.WorkloadListForKind Sample.LabelsSelector
    Sample.AnnotationPrefix "UpToDate" "WorkloadUpToDate" "NoWorkloadsFound"
    "FinishedReconcile" "UpToDate" Sample.req
    (mkWorld
       (Sample.mkStore
          [(Sample.req,
            Sample.resource None [Sample.finalizer]
              (Sample.selectorByName "Deployment" "web"))]
          [Sample.deployment "web"] true false)
       recentlyDeletedCache.empty 0%nat [])
    (Sample.resource None [Sample.finalizer]
       (Sample.selectorByName "Deployment" "web"))
    (Errorf "unable to load resource by name default/web:  unavailable")
    _ _ _ _)); [reflexivity|reflexivity|vm_compute; reflexivity..].
Defined.

Lemma Reconcile_marks_up_to_date_witness :
  ∃ obj cond,
    writes
      (newCalls (Sample.Reconcile Sample.req)
         (Sample.world
            (Sample.resource None [Sample.finalizer]
               (Sample.selectorByName "Deployment" "web"))
            [Sample.deployment "web"] recentlyDeletedCache.empty))
    = [CallStatusPatch obj
         (Sample.resource None [Sample.finalizer]
            (Sample.selectorByName "Deployment" "web"))]
    ∧ findCondition
        (AuthProxyWorkloadStatus.Conditions (AuthProxyWorkload.Status obj))
        "UpToDate" = Some cond
    ∧ Condition.Reason cond = "FinishedReconcile"
    ∧ Condition.Message cond = "Reconciled 1 matching workloads complete".
Proof.
  destruct (Reconcile_marks_up_to_date Sample.client Sample.clock
    Sample.WorkloadForKind Sample.WorkloadListForKind Sample.LabelsSelector
    Sample.AnnotationPrefix "UpToDate" "WorkloadUpToDate" "NoWorkloadsFound"
    "FinishedReconcile" "UpToDate" Sample.req
    (Sample.world
       (Sample.resource None [Sample.finalizer]
          (Sample.selectorByName "Deployment" "web"))
       [Sample.deployment "web"] recentlyDeletedCache.empty)
    (Sample.resource None [Sample.finalizer]
       (Sample.selectorByName "Deployment" "web"))
    [Sample.deployment "web"] eq_refl eq_refl eq_refl eq_refl)
    as (obj & cond & Hw & _ & _ & Hfind & _ & _ & Hreason & Hmessage & _).
  exists obj, cond.
  split; [exact Hw|]. split; [exact Hfind|].
  split; [exact Hreason|exact Hmessage].
Defined.

Lemma Reconcile_deleted_without_finalizer_witness :
  writes
    (newCalls (Sample.Reconcile Sample.req)
       (Sample.world
          (Sample.resource (Some 5) []
             (Sample.selectorByName "Deployment" "web"))
          [Sample.deployment "web"] recentlyDeletedCache.empty)) = [].
Proof.
  refine (proj1 (Reconcile_deleted_without_finalizer Sample.client
    Sample.clock Sample.WorkloadForKind Sample.WorkloadListForKind
    Sample.LabelsSelector Sample.AnnotationPrefix "UpToDate"
    "WorkloadUpToDate" "NoWorkloadsFound" "FinishedReconcile" "UpToDate"
    Sample.req
    (Sample.world
       (Sample.resource (Some 5) []
          (Sample.selectorByName "Deployment" "web"))
       [Sample.deployment "web"] recentlyDeletedCache.empty)
    (Sample.resource (Some 5) [] (Sample.selectorByName "Deployment" "web"))
    _ _ _)); reflexivity.
Defined.

Lemma Reconcile_then_fetch_error_witness :
  (Finalizing.Reconcile Sample.req
     (Finalizing.Reconcile Sample.req Sample.deletedWorld).2).1
  = (noRequeue, None).
Proof.
  refine (Reconcile_then_fetch_error Finalizing.client Sample.clock
    Sample.WorkloadForKind Sample.WorkloadListForKind Sample.LabelsSelector
    Sample.AnnotationPrefix "UpToDate" "WorkloadUpToDate" "NoWorkloadsFound"
    "FinishedReconcile" "UpToDate" Sample.req Sample.deletedWorld
    Sample.deletedResource Sample.notFound _ _);
    [reflexivity|vm_compute; reflexivity].
Defined.

(** ** Calls and clock readings of one invocation *)

Section BudgetFacts.

Context {S : Type}.
Variable client : Client S.
Variable clock : nat → Z.
Variable WorkloadForKind : string → Workload.t + error.t.
Variable WorkloadListForKind : string → WorkloadList.t + error.t.
Variable LabelsSelector : WorkloadSelectorSpec.t → Selector + error.t.
Variable AnnotationPrefix : string.
Variable ConditionUpToDate : string.
Variable ConditionWorkloadUpToDate : string.
Variable ReasonNoWorkloadsFound : string.
Variable ReasonFinishedReconcile : string.
Variable ReasonUpToDate : string.

Abbreviation markWorkloads' :=
  (markWorkloads (S := S) clock ConditionWorkloadUpToDate ReasonUpToDate).
Abbreviation updateWorkloadStatus' :=
  (updateWorkloadStatus client clock WorkloadForKind WorkloadListForKind
     LabelsSelector ConditionWorkloadUpToDate ReasonUpToDate).
Abbreviation doDelete' :=
  (doDelete client clock WorkloadForKind WorkloadListForKind LabelsSelector
     AnnotationPrefix ConditionWorkloadUpToDate ReasonUpToDate).
Abbreviation doCreateUpdate' :=
  (doCreateUpdate client clock WorkloadForKind WorkloadListForKind
     LabelsSelector AnnotationPrefix ConditionUpToDate
     ConditionWorkloadUpToDate ReasonNoWorkloadsFound ReasonFinishedReconcile
     ReasonUpToDate).
Abbreviation Reconcile' :=
  (Reconcile client clock WorkloadForKind WorkloadListForKind LabelsSelector
     AnnotationPrefix ConditionUpToDate ConditionWorkloadUpToDate
     ReasonNoWorkloadsFound ReasonFinishedReconcile ReasonUpToDate).
Abbreviation finalizerName' := (finalizerName AnnotationPrefix).
Abbreviation statusesOf r :=
  (AuthProxyWorkloadStatus.WorkloadStatus (AuthProxyWorkload.Status r)).

Lemma doDelete_call_count resource (w : World S) :
  ∃ cs, calls (doDelete' resource w).2 = calls w ++ cs
        ∧ (length cs ≤ 2)%nat.
Proof.
  destruct (doDelete_steps client clock WorkloadForKind WorkloadListForKind
              LabelsSelector AnnotationPrefix ConditionWorkloadUpToDate
              ReasonUpToDate resource w)
    as (reads & (_ & _ & Hcalls) & Hlen & _ & Hdelete).
  destruct (updateWorkloadStatus' resource w).1.1.
  - destruct (ContainsFinalizer resource finalizerName');
      rewrite Hdelete; simpl.
    + eexists. split; [done|]. rewrite length_app. simpl. lia.
    + exists reads. split; [done|lia].
  - rewrite Hdelete. simpl. exists reads. split; [done|lia].
Qed.

Lemma doCreateUpdate_call_count resource (w : World S) :
  ∃ cs, calls (doCreateUpdate' resource w).2 = calls w ++ cs
        ∧ (length cs ≤ 3)%nat.
Proof.
  unfold doCreateUpdate.
  destruct (ContainsFinalizer resource finalizerName'); simpl.
  - destruct (updateWorkloadStatus_frame client clock WorkloadForKind
                WorkloadListForKind LabelsSelector ConditionWorkloadUpToDate
                ReasonUpToDate resource w)
      as (reads & (_ & _ & Hcalls) & Hlen & _).
    unfold bind.
    destruct (updateWorkloadStatus' resource w) as [[res resource'] w1].
    simpl in *. destruct res as [matching|err]; simpl.
    + assert (∀ reason message,
        ∃ cs, calls (reconcileResult client clock ConditionUpToDate resource'
                       resource reason message w1).2 = calls w1 ++ cs
              ∧ (length cs ≤ 2)%nat) as Hpatch.
      { intros reason message.
        destruct (reconcileResult_steps client clock ConditionUpToDate
                    resource' resource reason message w1) as (_ & Hlog & _).
        eexists. split; [exact Hlog|].
        destruct (StatusPatch client _ _ _).1; simpl; lia. }
      destruct (bool_decide _);
        [destruct (Hpatch ReasonNoWorkloadsFound "No workload updates needed")
           as (cs & Hcs & Hcslen)
        |destruct (Hpatch ReasonFinishedReconcile
                     (reconciledMessage (length matching)))
           as (cs & Hcs & Hcslen)];
        (exists (reads ++ cs); rewrite Hcs, Hcalls, <- app_assoc;
         split; [done|]; rewrite length_app; lia).
    + exists reads. split; [done|lia].
  - unfold applyFinalizer, bind, r_Update.
    destruct (Update client _ _) as [[e|] s']; simpl;
      (eexists [_]; split; [done|]; simpl; lia).
Qed.

(** X22: every invocation starts with the fetch of the requested key and
    issues at most three further client calls; it only adds to the log of
    calls. *)
Theorem Reconcile_call_budget (req : NamespacedName) (w : World S) :
  ∃ rest,
    calls (Reconcile' req w).2 = calls w ++ CallGet req :: rest
    ∧ newCalls (Reconcile' req) w = CallGet req :: rest
    ∧ (length rest ≤ 3)%nat.
Proof.
  assert (∃ rest, calls (Reconcile' req w).2 = calls w ++ CallGet req :: rest
                  ∧ (length rest ≤ 3)%nat) as (rest & Hcalls & Hlen).
  { unfold Reconcile, bind, r_Get, recentlyDeleted_get, recentlyDeleted_set.
    simpl. destruct (Get client req (store w)) as [resource|err]; simpl.
    - destruct (Time_IsZero _); simpl.
      + match goal with
        | |- context [doCreateUpdate' resource ?w1] =>
            destruct (doCreateUpdate_call_count resource w1)
              as (cs & Hcs & Hlen)
        end.
        exists cs. simpl in Hcs. by rewrite Hcs, <- app_assoc.
      + match goal with
        | |- context [doDelete' resource ?w1] =>
            destruct (doDelete_call_count resource w1) as (cs & Hcs & Hlen)
        end.
        exists cs. simpl in Hcs. rewrite Hcs, <- app_assoc.
        split; [done|lia].
    - exists []. destruct (recentlyDeletedCache.get _ _); simpl;
        (split; [done|lia]). }
  exists rest. split; [done|]. split; [|done].
  unfold newCalls. by rewrite Hcalls, drop_app_length.
Qed.

End BudgetFacts.

(** ** Timestamps of the marks *)

Section StampFacts.

Context {S : Type}.
Variable client : Client S.
Variable clock : nat → Z.
Variable WorkloadForKind : string → Workload.t + error.t.
Variable WorkloadListForKind : string → WorkloadList.t + error.t.
Variable LabelsSelector : WorkloadSelectorSpec.t → Selector + error.t.
Variable ConditionWorkloadUpToDate : string.
Variable ReasonUpToDate : string.

Abbreviation markWorkloads' :=
  (markWorkloads (S := S) clock ConditionWorkloadUpToDate ReasonUpToDate).
Abbreviation updateWorkloadStatus' :=
  (updateWorkloadStatus client clock WorkloadForKind WorkloadListForKind
     LabelsSelector ConditionWorkloadUpToDate ReasonUpToDate).
Abbreviation isMarkedAt' :=
  (isMarkedAt ConditionWorkloadUpToDate ReasonUpToDate).
Abbreviation statusesOf r :=
  (AuthProxyWorkloadStatus.WorkloadStatus (AuthProxyWorkload.Status r)).

(** One round of the loop reads the clock once. *)
Lemma markWorkloads_cons_at wl rest resource (w : World S) :
  markWorkloads' (wl :: rest) resource w
  = markWorkloads' rest
      (AuthProxyWorkload.setWorkloadStatus resource
         (replaceStatus (statusesOf resource)
            (WorkloadStatus.setConditions (newStatus wl)
               [{| Condition.Type_ := ConditionWorkloadUpToDate;
                   Condition.Status := ConditionTrue;
                   Condition.ObservedGeneration :=
                     AuthProxyWorkload.GetGeneration resource;
                   Condition.LastTransitionTime := Some (clock (ticks w));
                   Condition.Reason := ReasonUpToDate;
                   Condition.Message :=
                     "No update needed for this workload" |}])))
      (mkWorld (store w) (recentlyDeleted w) (Datatypes.S (ticks w))
         (calls w)).
Proof. reflexivity. Qed.

Lemma markWorkloads_ticks matching resource (w : World S) :
  ticks (markWorkloads' matching resource w).2
  = (ticks w + length matching)%nat.
Proof.
  revert resource w. induction matching as [|wl rest IH]; intros resource w.
  - simpl. lia.
  - rewrite markWorkloads_cons_at, IH. simpl. lia.
Qed.

Lemma markWorkloads_keeps_marked_at matching resource (w : World S) k lo :
  (∃ e n, e ∈ statusesOf resource
          ∧ WorkloadStatus.key e = k
          ∧ isMarkedAt' (AuthProxyWorkload.GetGeneration resource)
              (clock n) e
          ∧ (lo ≤ n < ticks w)%nat) →
  ∃ e n, e ∈ statusesOf (markWorkloads' matching resource w).1
         ∧ WorkloadStatus.key e = k
         ∧ isMarkedAt' (AuthProxyWorkload.GetGeneration resource)
             (clock n) e
         ∧ (lo ≤ n < ticks w + length matching)%nat.
Proof.
  revert resource w. induction matching as [|wl rest IH];
    intros resource w (e & n & He & Hk & Hm & Hn).
  - exists e, n. simpl. repeat (split; [done|]). lia.
  - rewrite markWorkloads_cons_at.
    match goal with
    | |- context [markWorkloads' rest ?r ?w1] =>
        destruct (IH r w1) as (e' & n' & He' & Hk' & Hm' & Hn')
    end.
    + simpl.
      match goal with
      | |- context [replaceStatus _ ?s] =>
          destruct (decide (WorkloadStatus.key e = WorkloadStatus.key s))
            as [Hsame|Hother];
          [exists s, (ticks w); split; [apply replaceStatus_matches|];
           split; [congruence|]; split; [done|lia]
          |exists e, n; split; [by apply replaceStatus_keeps_other|];
           split; [done|]; split; [done|lia]]
      end.
    + exists e', n'. repeat (split; [done|]). simpl in Hn'. simpl. lia.
Qed.

Lemma markWorkloads_marks_at matching resource (w : World S) wl :
  wl ∈ matching →
  ∃ e n, e ∈ statusesOf (markWorkloads' matching resource w).1
         ∧ WorkloadStatus.key e = WorkloadStatus.key (newStatus wl)
         ∧ isMarkedAt' (AuthProxyWorkload.GetGeneration resource)
             (clock n) e
         ∧ (ticks w ≤ n < ticks w + length matching)%nat.
Proof.
  revert resource w. induction matching as [|wl0 rest IH];
    intros resource w Hwl; [by apply elem_of_nil in Hwl|].
  rewrite markWorkloads_cons_at.
  apply elem_of_cons in Hwl as [->|Hwl].
  - match goal with
    | |- context [markWorkloads' rest ?r ?w1] =>
        destruct (markWorkloads_keeps_marked_at rest r w1
                    (WorkloadStatus.key (newStatus wl0)) (ticks w))
          as (e & n & He & Hk & Hm & Hn)
    end.
    + simpl. eexists _, (ticks w). split; [apply replaceStatus_matches|].
      split; [done|]. split; [done|lia].
    + exists e, n. repeat (split; [done|]). simpl in Hn. simpl. lia.
  - match goal with
    | |- context [markWorkloads' rest ?r ?w1] =>
        destruct (IH r w1 Hwl) as (e & n & He & Hk & Hm & Hn)
    end.
    exists e, n. repeat (split; [done|]). simpl in Hn. simpl. lia.
Qed.

(** X23: [updateWorkloadStatus] reads the clock once per workload it
    returns, and the mark of each of them carries one of these readings as
    its timestamp: the timestamp an entry had before the call is not
    kept. *)
Theorem updateWorkloadStatus_restamps
    (resource : AuthProxyWorkload.t) (w : World S)
    (matching : list Workload.t) (wl : Workload.t) :
  (updateWorkloadStatus' resource w).1.1 = inl matching →
  wl ∈ matching →
  ticks (updateWorkloadStatus' resource w).2
  = (ticks w + length matching)%nat
  ∧ ∃ e n,
      e ∈ statusesOf (updateWorkloadStatus' resource w).1.2
      ∧ WorkloadStatus.key e
        = (Workload.Kind wl, Workload.Version wl, Workload.Namespace wl,
           Workload.Name wl)
      ∧ isMarkedAt ConditionWorkloadUpToDate ReasonUpToDate
          (AuthProxyWorkload.GetGeneration resource) (clock n) e
      ∧ (ticks w ≤ n < ticks w + length matching)%nat.
Proof.
  unfold updateWorkloadStatus, bind.
  destruct (listWorkloads_reads client WorkloadForKind WorkloadListForKind
              LabelsSelector (AuthProxyWorkload.Spec_Workload resource)
              (AuthProxyWorkload.GetNamespace resource) w)
    as (reads & _ & Hticks & _).
  destruct (listWorkloads _ _ _ _ _ _ w) as [[found|err] w1]; simpl in *;
    [|done].
  pose proof (markWorkloads_marks_at found resource w1 wl) as Hmarks.
  pose proof (markWorkloads_ticks found resource w1) as Hcount.
  destruct (markWorkloads _ _ _ found resource w1) as [resource' w2].
  simpl in *. intros [= <-] Hwl. rewrite <- Hticks.
  split; [done|]. by apply Hmarks.
Qed.

End StampFacts.

Lemma updateWorkloadStatus_restamps_witness :
  ∃ e,
    e ∈ AuthProxyWorkloadStatus.WorkloadStatus
          (AuthProxyWorkload.Status
             (updateWorkloadStatus Sample.client Sample.clock
                Sample.WorkloadForKind Sample.WorkloadListForKind
                Sample.LabelsSelector "WorkloadUpToDate" "UpToDate"
                Sample.deletedResource Sample.deletedWorld).1.2)
    ∧ isMarkedAt "WorkloadUpToDate" "UpToDate" 1 1000 e.
Proof.
  destruct (updateWorkloadStatus_restamps Sample.client Sample.clock
    Sample.WorkloadForKind Sample.WorkloadListForKind Sample.LabelsSelector
    "WorkloadUpToDate" "UpToDate" Sample.deletedResource Sample.deletedWorld
    [Sample.deployment "web"] (Sample.deployment "web") eq_refl
    ltac:(constructor)) as (_ & e & n & He & _ & Hm & Hn).
  exists e. split; [exact He|].
  simpl in Hn. assert (n = 0%nat) as -> by lia. exact Hm.
Defined.
